(* ===== verification/_CoqProject ===== *)
-Q . S2P
Prelude.v
JsNum.v
GallerySwipe.v
Globe.v
GlobeReact.v
GlobeInvariant.v
Mascot.v
Carousel.v
Routing.v
Lightbox.v
GlobeFloat.v
GalleryReact.v
Layout.v
