(* ===== verification/Prelude.v ===== *)
(** * A verification development of CupolaExpress

    CupolaExpress is a small website about the ISS Cupola.  Its behaviour
    lives in two places: [src/main.js], a plain script that wires the static
    page (hash routing, a mascot, a thumbnail gallery with a lightbox, a
    disaster carousel and a three.js globe), and the React pages
    [src/homepage.js] (the same globe inside a [useEffect]),
    [src/gallery.js] (a gallery with its own overlay) and [src/layout.js]
    (the navigation bar).  [src/education.js] is static content.  The parts
    do not call each other, with one exception: the globe's [pointermove]
    listener in [main.js] registers swipe listeners on the gallery
    container, so the globe and the gallery share that element.

    ** How the code is modelled

    Every part is an object whose listeners the browser runs one event at a
    time.  Each is modelled by a record of its state (the closure variables
    and the DOM properties the listeners read or write), an inductive type
    of its events and a total step function, one case per listener, written
    from the listener's code with its guards and early returns.  A run of
    the page is [run step s evs], the left fold below; invariants are proved
    over the inductive [reachable] by rule induction ([reachable_invariant]).

    - [Prelude] (this file): [run], [reachable] and their lemmas, powers
      on [Q], [update_nth] for writes through an index,
      the lemma on lists with distinct keys used by the menus, and the
      [NoDup] lemmas of the texture queue.
    - [JsNum]: JavaScript numbers as the class [JSNum] (literals, [+], [-],
      [*], [/], [Math.min], [Math.max]) with its instance on exact rationals
      [Q], and [Math.cos]/[Math.sin] as the class [MathTrig], with an
      executable instance on [Q] (range reduction to [[-pi,pi]], Taylor
      series to degree 12).  The components are written over any [JSNum];
      most theorems use [Q], in which the damping and clamping arithmetic
      is exact, and [JSNum_F64] reads the operations as IEEE 754 binary64
      on the kernel's primitive floats (literals correctly rounded,
      [Math.min]/[Math.max] with [NaN] and signed zeros).
    - [GallerySwipe]: [main.js] lines 286-298, the swipe closures on
      [#gallery-grid] and the container they share; the closures run in
      registration order on the one container ([dispatch]).
    - [Globe]: [main.js] lines 164-315, the vanilla globe: camera, spin,
      gesture and scene records; [onDown], [onMove], [onWheel],
      [onTouchStart], [onTouchMove], the [pointerleave] and [pointermove]
      listeners, [onResize], the [animate] frame, the texture loads with
      their fallback, and the mount.  The three.js raycast is the class
      [EarthPicker], the one question the listeners ask the renderer.  The
      theorems follow, with the picker [sphere_picker] (a ray against the
      sphere of radius 1.5 at the origin, seen through the 75-degree
      camera) for the witnesses; among them the star field's cube and the
      planets' phase.
    - [GlobeReact]: [homepage.js], the React globe: the same handlers
      without the raycast, the [animate] loop and the effect's cleanup with
      the lifecycle of listeners, canvas, renderer and animation frame;
      then the simulation between the React and the vanilla globe, and the
      lifecycle theorems.  The simulation is stated for mouse input
      ([corresponds], over [previousMousePosition]) and for touch input
      (over [touchStartX/Y]); mixing the two is where the pages differ.
    - [GlobeInvariant]: the well-formedness of the vanilla globe's state
      ([globe_wf]: cursor classes, planets, texture loads in flight),
      preserved by every listener.
    - [GlobeFloat]: the vanilla globe run at binary64, the damping's fixed
      point, and [MathTrig]/[EarthPicker] instances at floats.
    - [Mascot]: [main.js] lines 11-49; time passes by [Elapse] events, in
      which a pending timer fires at its deadline.
    - [Carousel]: [main.js] lines 114-162; [NaN] as [None]; the browser's
      clamp of [scrollLeft] to the track's range is written out.
    - [Routing]: [main.js] lines 1-9, [activateFromHash].
    - [Lightbox]: [main.js] lines 53-112, the thumbnails and the lightbox,
      and [spec_step], the abstract lightbox both galleries implement.
    - [GalleryReact]: [gallery.js], [selectedImage] and React's click
      bubbling with [stopPropagation].
    - [Layout]: [layout.js], the active navigation item;
      [createPageUrl], imported from outside the repository, is a section
      variable.

    ** What is proved

    - Globe: a press off the Earth changes nothing; a drag sets the velocity
      exactly; the zoom stays in [[3,10]] in every reachable state; [n] idle
      frames have a closed form in [Q] (velocity [v * .95^n], rotation by
      a geometric sum; with [vel.y < -.001] it shows the yaw turning back
      while the Earth coasts); only a [mouseup] or [touchend]
      on the canvas ends a drag; the texture fallback keeps the
      best loaded layer; [pointerleave] does not end a drag; every mouse
      move leaks one more set of gallery listeners, which the duplicates
      make invisible ([GallerySwipe]).  Every reachable state is well
      formed ([GlobeInvariant]); its stars stay in the cube of side 2000 and
      the planets move as functions of their phase ([Globe]).  In binary64 the
      damping does not decay to zero: after a drag the velocity settles at
      [9 * 2^-1074] within 15000 frames and stays there ([GlobeFloat]);
      the exact [Q] closed form, in which the velocity only tends to zero,
      is not a statement about the page's doubles beyond that point.
    - React globe: for mouse, wheel and frame events, with a raycast that
      hits everywhere, it simulates the vanilla globe step for step, and so
      it does for touch, wheel and frame events; a mouse move during a
      touch drag is where they part; its lifecycle flags stay consistent
      in every reachable state, and after
      its cleanup the animation frame chain keeps rendering, input is
      ignored, and a second cleanup throws.
    - Mascot, carousel, routing, lightboxes, navigation: the invariant of
      the mascot's timer, its termination within 3000 ms of quiet, and its
      click that cannot reopen; the carousel's
      index range, round trips, snapping and its [NaN] state; at most one
      section shown, the [#home] default for an empty hash and the blank
      page on a non-empty hash that names no section; both galleries refine [spec_step], the vanilla swipe detection
      and its throwing [pointerup]; one highlighted navigation item.

    ** Bounds and choices

    No definition uses fuel: every step function is structural, and the
    only iteration, the animation frames, is a [run] over a list of frame
    events, so the closed forms hold for every [n].  The frame loop is
    meant to run forever; what must terminate is the mascot's minimize
    timer, and [Mascot.timer_terminates] bounds it: in every reachable
    state 3000 ms of quiet leave no timer pending (the measure is the time
    left before the deadline, at most 3000 ms by [timer_bound]).  When the
    coasting ends is answered in binary64 by [GlobeFloat]: it never does,
    the velocity reaching its fixed point within 15000 frames for drags of
    up to 200 pixels (a bound the kernel checks by running the 400 drags).
    The float theorem covers that range because each drag is run by
    [vm_compute]; every [Q] theorem covers all inputs.  The trigonometric
    series only places the orbiting planets; no theorem depends on its
    precision.  Widths and coordinates are rationals, with the zero-width
    cases kept where the code divides.

    ** Not modelled

    Rendering, lights, materials and CSS hold no state the listeners read;
    [education.js] and the JSX markup are static content (the variants of
    [education.js] are data that framer-motion interprets; the page has no
    state or handler); framer-motion's animations and smooth scrolling are
    presentation.  The [touchcancel] event has no listener in either globe,
    so it is not an event of the model.  [createPageUrl] and the browser's
    DOM are outside the repository and enter as parameters. *)

From Stdlib Require Import QArith Qabs Qminmax Lqa List ZArith Lia Bool.
Import ListNotations.

Declare Scope cupola_scope.
Delimit Scope cupola_scope with cupola.
Create HintDb cupola.

(** ** Event-driven components

    Every component of the site is an object whose handlers are run by the
    browser one event at a time.  A component is modelled by its state, an
    event type and a total step function; a run of the page is the left fold
    of the step over the events, in the order the browser dispatches them. *)

Section Run.
Context {S E : Type} (step : S -> E -> S).

Definition run (s : S) (evs : list E) : S := fold_left step evs s.

(** The states a component can be in after some events, as a step
    relation closed under reflexivity and transitivity. *)
Inductive reachable (init : S) : S -> Prop :=
| reach_init : reachable init init
| reach_step s e : reachable init s -> reachable init (step s e).

End Run.

Arguments reach_init {S E step init}.

Lemma run_app {S E} (step : S -> E -> S) s l1 l2 :
  run step s (l1 ++ l2) = run step (run step s l1) l2.
Proof. unfold run. apply fold_left_app. Qed.

Lemma run_cons {S E} (step : S -> E -> S) s e l :
  run step s (e :: l) = run step (step s e) l.
Proof. reflexivity. Qed.

Lemma run_snoc {S E} (step : S -> E -> S) s l e :
  run step s (l ++ [e]) = step (run step s l) e.
Proof. rewrite run_app. reflexivity. Qed.

(** A run from [init] ends in a reachable state, and every reachable state
    is the end of some run: the two presentations agree. *)
Lemma reachable_run {S E} (step : S -> E -> S) init s :
  reachable step init s <-> exists evs, s = run step init evs.
Proof.
  split.
  - induction 1 as [|s e _ [evs ->]].
    + exists []. reflexivity.
    + exists (evs ++ [e]). now rewrite run_snoc.
  - intros [evs ->]. induction evs as [|e evs IH] using rev_ind.
    + constructor.
    + rewrite run_snoc. now constructor.
Qed.

(** An invariant preserved by every event holds of every reachable state. *)
Lemma reachable_invariant {S E} (step : S -> E -> S) (P : S -> Prop) init :
  P init -> (forall s e, P s -> P (step s e)) ->
  forall s, reachable step init s -> P s.
Proof. intros Hi Hs s R. induction R; auto. Qed.

Lemma run_invariant {S E} (step : S -> E -> S) (P : S -> Prop) :
  (forall s e, P s -> P (step s e)) ->
  forall evs s, P s -> P (run step s evs).
Proof. intros Hs evs. induction evs as [|e evs IH]; simpl; auto. Qed.

(** ** Rationals: damping and clamping *)

Local Open Scope Q_scope.

(** [q ^ n] for a rational and a natural exponent, by repeated product;
    [Qpower] takes a [Z] exponent and computes through [Qinv]. *)
Fixpoint qpow (q : Q) (n : nat) : Q :=
  match n with
  | O => 1
  | S n => q * qpow q n
  end.

Lemma qpow_succ_r q n : qpow q (S n) == qpow q n * q.
Proof. simpl. ring. Qed.

Lemma qpow_pos q n : 0 < q -> 0 < qpow q n.
Proof.
  intros Hq. induction n as [|n IH]; simpl; [lra|].
  apply Qmult_lt_0_compat; assumption.
Qed.

Lemma qpow_le_1 q n : 0 <= q -> q <= 1 -> qpow q n <= 1.
Proof.
  intros H0 H1. induction n as [|n IH]; simpl; [lra|].
  assert (0 <= qpow q n).
  { clear IH. induction n; simpl; [lra|]. now apply Qmult_le_0_compat. }
  nra.
Qed.

#[export] Hint Resolve qpow_pos qpow_le_1 : cupola.

(** ** Tactics shared by the components *)

(** Split the boolean tests of a handler into cases, keeping the equation. *)
Ltac case_bool :=
  match goal with
  | |- context [if ?b then _ else _] =>
      lazymatch b with
      | context [if _ then _ else _] => fail
      | _ => let E := fresh "E" in destruct b eqn:E
      end
  end.

(** [l[i] = f(l[i])] on an array, where JavaScript code writes through an
    index it knows to be in range: out of range, nothing changes. *)
Fixpoint update_nth {A} (i : nat) (f : A -> A) (l : list A) : list A :=
  match l, i with
  | [], _ => []
  | x :: l, O => f x :: l
  | x :: l, S i => x :: update_nth i f l
  end.

Lemma length_update_nth {A} i (f : A -> A) l : length (update_nth i f l) = length l.
Proof. revert i; induction l as [|x l IH]; intros [|i]; simpl; auto. Qed.

Lemma nth_error_update_nth_eq {A} i (f : A -> A) l :
  nth_error (update_nth i f l) i = option_map f (nth_error l i).
Proof. revert i; induction l as [|x l IH]; intros [|i]; simpl; auto. Qed.

Lemma nth_error_update_nth_ne {A} i j (f : A -> A) l :
  i <> j -> nth_error (update_nth i f l) j = nth_error l j.
Proof.
  revert i j; induction l as [|x l IH]; intros [|i] [|j] Hne; simpl; auto.
  - contradiction.
Qed.

(** A write through an index that keeps a projection keeps the projected
    list. *)
Lemma map_update_nth_id {A B} (p : A -> B) i f (l : list A) :
  (forall x, p (f x) = p x) -> map p (update_nth i f l) = map p l.
Proof.
  intros Hf. revert i; induction l as [|x l IH]; intros [|i]; cbn; rewrite ?Hf, ?IH; auto.
Qed.

(** In a list whose keys are distinct, comparing every key with the key of
    the [idx]-th element flags the [idx]-th element and no other. *)
Lemma indicator_nth {A B} (eqb : B -> B -> bool) (key : A -> B) (l : list A) idx k j :
  (forall x y, reflect (x = y) (eqb x y)) ->
  NoDup (map key l) -> nth_error (map key l) idx = Some k ->
  nth_error (map (fun x => eqb k (key x)) l) j = option_map (fun _ => Nat.eqb j idx) (nth_error l j).
Proof.
  intros Heqb Hnd Hk. rewrite nth_error_map. destruct (nth_error l j) as [y|] eqn:Ey; [cbn; f_equal|reflexivity].
  assert (Hj : nth_error (map key l) j = Some (key y)) by (rewrite nth_error_map, Ey; reflexivity).
  destruct (Heqb k (key y)) as [->|Hne]; destruct (Nat.eqb_spec j idx) as [->|Hji];
    [reflexivity| |congruence|reflexivity].
  exfalso; apply Hji. apply (proj1 (NoDup_nth_error _) Hnd); [|congruence].
  apply nth_error_Some. congruence.
Qed.

(** [remove] keeps a list free of duplicates, and so does appending an
    element that is not in it. *)
Lemma NoDup_remove_all {A} (eq_dec : forall x y : A, {x = y} + {x <> y}) x l :
  NoDup l -> NoDup (remove eq_dec x l).
Proof.
  induction 1 as [|y l Hy Hnd IH]; cbn; [constructor|].
  destruct (eq_dec x y); [exact IH|]. constructor; [|exact IH].
  intros Hin. apply in_remove in Hin. tauto.
Qed.

Lemma NoDup_snoc {A} (l : list A) y : NoDup l -> ~ In y l -> NoDup (l ++ [y]).
Proof.
  intros Hnd Hy. apply NoDup_app; [exact Hnd | repeat constructor; intros [] | ].
  intros x Hx [<-|[]]. contradiction.
Qed.

Lemma Forall2_map_self {A B} (R : A -> B -> Prop) (f : A -> B) l :
  (forall x, In x l -> R x (f x)) -> Forall2 R l (map f l).
Proof.
  induction l as [|x l IH]; intros Hf; cbn; constructor; [apply Hf; now left|].
  apply IH. intros y Hy. apply Hf. now right.
Qed.

(** A natural number as a rational. *)
Definition Qnat (n : nat) : Q := inject_Z (Z.of_nat n).

Lemma Qnat_succ n : Qnat (S n) == Qnat n + 1.
Proof. unfold Qnat. rewrite Nat2Z.inj_succ, <- Z.add_1_r, inject_Z_plus. reflexivity. Qed.

Lemma Qnat_nonneg n : 0 <= Qnat n.
Proof. unfold Qnat. change 0%Q with (inject_Z 0). rewrite <- Zle_Qle. lia. Qed.

#[export] Hint Resolve Qnat_nonneg : cupola.
