(* ===== verification/JsNum.v ===== *)
(** * JsNum: the JavaScript number interface the handlers compute with

    The handlers of [src/main.js] and [src/homepage.js] compute with
    JavaScript numbers: [+], [-], [*], [/], unary minus, [Math.min],
    [Math.max] and numeric literals such as [.005] and [.95].  The class
    [JSNum] names these operations; the globe controller is written once
    against it.  [JSNum_Q] reads them as exact rational arithmetic, the
    instance every theorem about the controller is proved at; a literal is
    the rational it denotes.  [JSNum_F64] reads them as the IEEE 754
    binary64 operations JavaScript performs, on the kernel's primitive
    floats: the instance that shows what rounding does to the damping. *)

From Corelib Require Import PrimFloat.
From Stdlib Require Import QArith Qminmax Qround Lqa.
From S2P Require Import Prelude.

Class JSNum (N : Type) := {
  num_lit : Q -> N;             (** a numeric literal of the source *)
  num_add : N -> N -> N;
  num_sub : N -> N -> N;
  num_mul : N -> N -> N;
  num_div : N -> N -> N;
  num_neg : N -> N;             (** unary minus *)
  num_min : N -> N -> N;        (** [Math.min] of two numbers *)
  num_max : N -> N -> N         (** [Math.max] of two numbers *)
}.

Arguments num_lit {N _} q%_Q.

Infix "⊕" := num_add (at level 50, left associativity) : cupola_scope.
Infix "⊖" := num_sub (at level 50, left associativity) : cupola_scope.
Infix "⊗" := num_mul (at level 40, left associativity) : cupola_scope.
Infix "⊘" := num_div (at level 40, left associativity) : cupola_scope.
Notation "⟪ q ⟫" := (num_lit q%Q) (at level 0, q at level 200, format "⟪ q ⟫") : cupola_scope.

(** Exact rational arithmetic. *)
#[export] Instance JSNum_Q : JSNum Q := {
  num_lit q := q;
  num_add := Qplus;
  num_sub := Qminus;
  num_mul := Qmult;
  num_div := Qdiv;
  num_neg := Qopp;
  num_min := Qmin;
  num_max := Qmax
}.

(** ** Binary64 *)

Section Binary64.
Local Open Scope float_scope.

(** A positive integer as a double: exact below [2^53]. *)
Fixpoint pos2f (p : positive) : float :=
  match p with
  | xH => one
  | xO p => two * pos2f p
  | xI p => two * pos2f p + one
  end.

Definition z2f (z : Z) : float :=
  match z with Z0 => zero | Zpos p => pos2f p | Zneg p => - pos2f p end.

(** A numeric literal: the quotient of its numerator and denominator, both
    below [2^53] for every literal of the source, so that the one rounding
    of the division gives the double nearest the decimal, as the
    JavaScript parser does. *)
Definition q2f (q : Q) : float := z2f (Qnum q) / pos2f (Qden q).

(** [Math.min] and [Math.max] of two numbers (ECMAScript 21.3.2.24-25):
    [NaN] if either is [NaN], and [-0] below [+0]. *)
Definition js_min (a b : float) : float :=
  if is_nan a || is_nan b then nan
  else if a <? b then a else if b <? a then b
  else if get_sign a then a else b.

Definition js_max (a b : float) : float :=
  if is_nan a || is_nan b then nan
  else if a <? b then b else if b <? a then a
  else if get_sign a then b else a.

End Binary64.

#[export] Instance JSNum_F64 : JSNum float := {
  num_lit := q2f;
  num_add := PrimFloat.add;
  num_sub := PrimFloat.sub;
  num_mul := PrimFloat.mul;
  num_div := PrimFloat.div;
  num_neg := PrimFloat.opp;
  num_min := js_min;
  num_max := js_max
}.

(** Read the operations of the rational instance as the Stdlib's. *)
Ltac num_Q :=
  cbv [num_lit num_add num_sub num_mul num_div num_neg num_min num_max JSNum_Q] in *.

(** [Math.cos] and [Math.sin]: ECMAScript leaves their results
    implementation-approximated, so they are an interface of their own. *)
Class MathTrig (N : Type) := {
  math_cos : N -> N;
  math_sin : N -> N
}.

(** Cosine and sine at rationals, for running the models: their series
    to degree 12 after reducing the angle to [-pi, pi). *)
Definition two_pi : Q := 6.283185307179586.

Definition reduce_angle (a : Q) : Q :=
  Qred (a - two_pi * inject_Z (Qfloor (a / two_pi + (1 # 2)))).

Fixpoint series (x term : Q) (k n : nat) : Q :=
  match n with
  | O => 0
  | S n => term + series x (Qred (- term * x * x / (Qnat (S k) * Qnat (S (S k))))) (S (S k)) n
  end.

#[export] Instance series_trig : MathTrig Q := {
  math_cos a := let x := reduce_angle a in Qred (series x 1 0 7);
  math_sin a := let x := reduce_angle a in Qred (series x x 1 7)
}.
