(* ===== verification/GallerySwipe.v ===== *)
(** * GallerySwipe: the drag-to-scroll listeners of the gallery container

    [src/main.js] lines 286-298, inside the canvas [pointermove] listener:
    on every mouse move over the globe canvas, the code looks up
    [.gallery-wrap #gallery-grid] and registers on it a new set of five
    listeners ([pointerdown], [pointermove], [pointerup], [pointercancel],
    [pointerleave]) sharing a fresh closure [{isDown, startX, scrollLeft}].

    The container is one DOM object shared by all these closures: a
    [gallery] holds the closures in registration order and the container's
    own state, and an event runs every closure on the container in that
    order, threading it (the aliasing of the shared element).  The browser
    keeps [scrollLeft] within [0, max_scroll]: [scroll_to] writes it. *)

From Stdlib Require Import QArith List.
From S2P Require Import Prelude JsNum.
Import ListNotations.
Local Open Scope cupola_scope.

Section GallerySwipe.
Context {N : Type} `{JSNum N}.

(** The width the container can scroll, fixed by its content. *)
Variable max_scroll : N.

(** The variables of one registration: [let isDown = false; let startX = 0;
    let scrollLeft = 0;]. *)
Record swipe_closure := {
  isDown : bool;
  startX : N;
  scrollLeft : N
}.

(** The container element: its scroll offset and its [dragging] class. *)
Record container := {
  scroll_left : N;
  dragging_class : bool
}.

Record gallery := {
  listeners : list swipe_closure;
  cont : container
}.

Inductive gallery_event :=
| GPointerDown (clientX : N)
| GPointerMove (clientX : N)
| GPointerUp
| GPointerCancel
| GPointerLeave.

Definition fresh_closure : swipe_closure :=
  {| isDown := false; startX := ⟪0⟫; scrollLeft := ⟪0⟫ |}.

(** One registration: the five [addEventListener] calls of lines 290-297. *)
Definition register_swipe (g : gallery) : gallery :=
  {| listeners := listeners g ++ [fresh_closure]; cont := cont g |}.

(** The browser's write of [scrollLeft]: clamped to the scrollable range. *)
Definition scroll_to (k : container) (v : N) : container :=
  {| scroll_left := num_max ⟪0⟫ (num_min max_scroll v); dragging_class := dragging_class k |}.

(** One closure's listener for an event, on the shared container. *)
Definition swipe_handler (ev : gallery_event) (c : swipe_closure) (k : container)
  : swipe_closure * container :=
  match ev with
  | GPointerDown x =>
      ({| isDown := true; startX := x; scrollLeft := scroll_left k |},
       {| scroll_left := scroll_left k; dragging_class := true |})
  | GPointerMove x =>
      if negb (isDown c) then (c, k)
      else (c, scroll_to k (scrollLeft c ⊖ (x ⊖ startX c)))
  | GPointerUp | GPointerCancel | GPointerLeave =>
      ({| isDown := false; startX := startX c; scrollLeft := scrollLeft c |},
       {| scroll_left := scroll_left k; dragging_class := false |})
  end.

(** The browser runs the listeners of an event in registration order. *)
Fixpoint dispatch (ev : gallery_event) (cs : list swipe_closure) (k : container)
  : list swipe_closure * container :=
  match cs with
  | [] => ([], k)
  | c :: cs =>
      let '(c', k') := swipe_handler ev c k in
      let '(cs', k'') := dispatch ev cs k' in
      (c' :: cs', k'')
  end.

Definition gallery_step (g : gallery) (ev : gallery_event) : gallery :=
  let '(cs, k) := dispatch ev (listeners g) (cont g) in
  {| listeners := cs; cont := k |}.

(** Running a closure again on the container it has just written changes
    nothing: each listener writes values it does not read back. *)
Lemma swipe_handler_idem ev c k c' k' :
  swipe_handler ev c k = (c', k') -> swipe_handler ev c k' = (c', k').
Proof.
  destruct ev; simpl; intros Heq.
  - now inversion Heq.
  - destruct (isDown c); simpl in *; inversion Heq; reflexivity.
  - now inversion Heq.
  - now inversion Heq.
  - now inversion Heq.
Qed.

(** After one closure has run, identical closures behind it only rewrite
    what it wrote. *)
Lemma dispatch_repeat_after ev c k c' k' n :
  swipe_handler ev c k = (c', k') -> dispatch ev (repeat c n) k' = (repeat c' n, k').
Proof.
  intros Hh. pose proof (swipe_handler_idem _ _ _ _ _ Hh) as Hi.
  induction n as [|n IH]; simpl; [reflexivity|].
  now rewrite Hi, IH.
Qed.

Lemma dispatch_repeat ev c k c' k' n :
  swipe_handler ev c k = (c', k') -> dispatch ev (repeat c (S n)) k = (repeat c' (S n), k').
Proof.
  intros Hh. simpl. rewrite Hh. now rewrite (dispatch_repeat_after _ _ _ _ _ n Hh).
Qed.

Lemma gallery_step_repeat ev c k n :
  gallery_step {| listeners := repeat c (S n); cont := k |} ev =
  {| listeners := repeat (fst (swipe_handler ev c k)) (S n);
     cont := snd (swipe_handler ev c k) |}.
Proof.
  unfold gallery_step; cbn [listeners cont].
  destruct (swipe_handler ev c k) as [c' k'] eqn:Hh.
  now rewrite (dispatch_repeat _ _ _ _ _ n Hh).
Qed.

(** C12: duplicated registrations are invisible on the container: a
    gallery carrying [n+1] copies of a closure scrolls and toggles its
    [dragging] class exactly as one carrying a single copy, on every
    sequence of pointer events. *)
Theorem swipe_duplicates_invisible c n k evs :
  cont (run gallery_step {| listeners := repeat c (S n); cont := k |} evs) =
  cont (run gallery_step {| listeners := [c]; cont := k |} evs).
Proof.
  revert c k. induction evs as [|ev evs IH]; intros c k; [reflexivity|].
  rewrite !run_cons, gallery_step_repeat.
  change [c] with (repeat c 1). rewrite gallery_step_repeat. apply IH.
Qed.

End GallerySwipe.
