(* ===== verification/Globe.v ===== *)
(** * Globe: the raycast-gated globe controller of [src/main.js]

    Lines 164-315 of [src/main.js] build a three.js scene (camera, Earth,
    four decorative planets, a star field), register the input listeners on
    the renderer's canvas and run the [animate] loop.  The closure variables
    of that block become the fields of [globe]: the Earth's rotation and the
    rotation velocity [vel] ([spin]), the drag state [isDragging], [prev]
    and [pointerOverEarth] with the two cursor classes ([gesture]), the
    camera and canvas geometry ([view]), the planets, stars and texture
    loads ([scene]), and the gallery container the canvas [pointermove]
    listener registers on ([GallerySwipe]).  Every listener is one case of
    [globe_step]; the browser runs them one event at a time.

    Two interfaces stand for three.js and the Math library:
    [EarthPicker] is [raycaster.setFromCamera] followed by
    [intersectObject(earth)], and [MathTrig] is [Math.cos]/[Math.sin].

    The second half of the file holds the theorems: the raycast gate on
    presses, the velocity a drag sets, the zoom range, the damped rotation
    in closed form, the drag that outlives [pointerleave], the listener
    leak of the canvas [pointermove] listener, and the two-tier texture
    fallback.  Theorems that hold of every number type are stated over
    [N]; those about arithmetic are stated at exact rationals.
    [sphere_picker] is a concrete [EarthPicker] at [Q], used with
    [series_trig] by the witnesses to run the controller. *)

From Stdlib Require Import QArith Qabs Qminmax Qround Lqa List Bool String Arith Lia.
From S2P Require Import Prelude JsNum GallerySwipe.
Import ListNotations.
Local Open Scope cupola_scope.

(** The texture layers of the Earth material and the two tiers of
    [loadWithFallback]. *)
Inductive tex_key := TexMap | TexBumpMap | TexSpecularMap.
Inductive tier := Local | Remote.

Definition tex_key_eqb (a b : tex_key) : bool :=
  match a, b with
  | TexMap, TexMap | TexBumpMap, TexBumpMap | TexSpecularMap, TexSpecularMap => true
  | _, _ => false
  end.

(** A texture request issued by [textureLoader.load]: one of the Earth's
    layers at a tier, or the texture of the [i]-th planet. *)
Inductive tex_request :=
| EarthTex (k : tex_key) (t : tier)
| PlanetTex (i : nat).

Definition tex_request_eq_dec (a b : tex_request) : {a = b} + {a <> b}.
Proof. decide equality; [decide equality | decide equality | apply Nat.eq_dec]. Defined.

(** The [pointerType] of a pointer event. *)
Inductive pointer_type := PMouse | PPen | PTouch.

(** The URLs of lines 194-196, local first. *)
Definition earth_url (k : tex_key) (t : tier) : string :=
  match k, t with
  | TexMap, Local => "assets/earth_atmos_2048.jpg"
  | TexBumpMap, Local => "assets/earth_normal_2048.jpg"
  | TexSpecularMap, Local => "assets/earth_specular_2048.jpg"
  | TexMap, Remote => "https://raw.githubusercontent.com/mrdoob/three.js/dev/examples/textures/planets/earth_atmos_2048.jpg"
  | TexBumpMap, Remote => "https://raw.githubusercontent.com/mrdoob/three.js/dev/examples/textures/planets/earth_normal_2048.jpg"
  | TexSpecularMap, Remote => "https://raw.githubusercontent.com/mrdoob/three.js/dev/examples/textures/planets/earth_specular_2048.jpg"
  end%string.

Section Globe.
Context {N : Type} `{JSNum N} `{MathTrig N}.

(** ** State *)

Record camera := { cam_z : N; cam_aspect : N }.

(** [earth.rotation.x], [earth.rotation.y] and [vel]. *)
Record spin := { rot_x : N; rot_y : N; vel_x : N; vel_y : N }.

(** [isDragging], [prev], [pointerOverEarth] and the classes
    [cursor-grab] and [cursor-grabbing] of [renderer.domElement]. *)
Record gesture := {
  isDragging : bool;
  prev_x : N;
  prev_y : N;
  pointerOverEarth : bool;
  cursor_grab : bool;
  cursor_grabbing : bool
}.

(** The camera and the canvas: [renderer.setSize(w, h)] sizes the canvas,
    so its bounding rectangle is [w] by [h] at [(rect_left, rect_top)]. *)
Record view := {
  camera_of : camera;
  width : N;
  height : N;
  rect_left : N;
  rect_top : N
}.

(** The Earth material's three layers: the URL of the applied texture. *)
Record earth_material := {
  mat_map : option string;
  mat_bumpMap : option string;
  mat_specularMap : option string
}.

(** An entry of [planetConfigs]. *)
Record planet_config := {
  cfg_size : N;
  cfg_distance : N;
  cfg_speed : N;
  cfg_tex : string;
  cfg_x : N;
  cfg_y : N
}.

(** A planet mesh: its [userData] (the configuration and [angle]), its
    position, its rotation about y and its material's map. *)
Record planet := {
  pl_cfg : planet_config;
  pl_angle : N;
  pl_pos_x : N;
  pl_pos_y : N;
  pl_pos_z : N;
  pl_rot_y : N;
  pl_map : option string
}.

Record scene := {
  planets : list planet;
  stars : list N;             (** [starsVertices], three numbers a point *)
  stars_rot_y : N;
  material : earth_material;
  pending : list tex_request  (** loads issued and not yet completed *)
}.

Record globe := {
  g_view : view;
  g_spin : spin;
  g_gesture : gesture;
  g_scene : scene;
  g_gallery : option (@gallery N)  (** [.gallery-wrap #gallery-grid], if present *)
}.

Inductive globe_event :=
| MouseDown (clientX clientY : N)
| MouseMove (clientX clientY : N)
| MouseUp
| PointerEnter
| PointerLeave
| PointerMove (pt : pointer_type) (clientX clientY : N)
| Wheel (deltaY : N)
| TouchStart (clientX clientY : N)
| TouchMove (clientX clientY : N)
| TouchEnd
| WindowResize (clientWidth clientHeight : N)
| AnimationFrame
| TextureLoaded (r : tex_request) (ok : bool).

(** ** The three.js raycast *)

(** [raycaster.setFromCamera(pointer, camera)] then
    [raycaster.intersectObject(earth, true).length > 0], at normalized
    device coordinates, for the Earth at its current rotation. *)
Class EarthPicker := pick_earth : camera -> N -> N -> N -> N -> bool.
Context `{EarthPicker}.

(** ** Handlers *)

Definition with_gesture (s : globe) (g : gesture) : globe :=
  {| g_view := g_view s; g_spin := g_spin s; g_gesture := g;
     g_scene := g_scene s; g_gallery := g_gallery s |}.

Definition with_spin (s : globe) (sp : spin) : globe :=
  {| g_view := g_view s; g_spin := sp; g_gesture := g_gesture s;
     g_scene := g_scene s; g_gallery := g_gallery s |}.

Definition with_view (s : globe) (v : view) : globe :=
  {| g_view := v; g_spin := g_spin s; g_gesture := g_gesture s;
     g_scene := g_scene s; g_gallery := g_gallery s |}.

Definition with_scene (s : globe) (sc : scene) : globe :=
  {| g_view := g_view s; g_spin := g_spin s; g_gesture := g_gesture s;
     g_scene := sc; g_gallery := g_gallery s |}.

(** [checkPointerOverEarth(clientX, clientY)], lines 204-211. *)
Definition checkPointerOverEarth (s : globe) (x y : N) : bool :=
  let v := g_view s in
  let px := (x ⊖ rect_left v) ⊘ width v ⊗ ⟪2⟫ ⊖ ⟪1⟫ in
  let py := num_neg ((y ⊖ rect_top v) ⊘ height v) ⊗ ⟪2⟫ ⊕ ⟪1⟫ in
  pick_earth (camera_of v) (rot_x (g_spin s)) (rot_y (g_spin s)) px py.

(** The common body of [onDown] and of the [touchstart] listener once the
    press is over the Earth: start dragging from [(x, y)], show the
    [cursor-grabbing] cursor. *)
Definition begin_drag (g : gesture) (x y : N) : gesture :=
  {| isDragging := true; prev_x := x; prev_y := y;
     pointerOverEarth := pointerOverEarth g;
     cursor_grab := false; cursor_grabbing := true |}.

(** [onDown], lines 238-244. *)
Definition onDown (s : globe) (x y : N) : globe :=
  if negb (checkPointerOverEarth s x y) then s
  else with_gesture s (begin_drag (g_gesture s) x y).

(** The hover update of [onMove] (lines 247-253), repeated verbatim in the
    canvas [pointermove] listener (lines 278-284). *)
Definition hover_cursor (g : gesture) (over : bool) : gesture :=
  let grab :=
    if over && negb (isDragging g) then true
    else if negb over && negb (isDragging g) then false
    else cursor_grab g in
  {| isDragging := isDragging g; prev_x := prev_x g; prev_y := prev_y g;
     pointerOverEarth := over; cursor_grab := grab;
     cursor_grabbing := cursor_grabbing g |}.

(** The drag update of [onMove] (line 255) and of [touchmove] (line 272):
    the velocity is SET from the displacement since [prev], scaled by
    [.005], and [prev] moves to the pointer. *)
Definition drag_to (sp : spin) (g : gesture) (x y : N) : spin * gesture :=
  let dx := x ⊖ prev_x g in
  let dy := y ⊖ prev_y g in
  ({| rot_x := rot_x sp; rot_y := rot_y sp;
      vel_x := dy ⊗ ⟪0.005⟫; vel_y := dx ⊗ ⟪0.005⟫ |},
   {| isDragging := isDragging g; prev_x := x; prev_y := y;
      pointerOverEarth := pointerOverEarth g;
      cursor_grab := cursor_grab g; cursor_grabbing := cursor_grabbing g |}).

Definition apply_drag (s : globe) (g : gesture) (x y : N) : globe :=
  let '(sp', g') := drag_to (g_spin s) g x y in
  with_gesture (with_spin s sp') g'.

(** [onMove], lines 245-256. *)
Definition onMove (s : globe) (x y : N) : globe :=
  let g := hover_cursor (g_gesture s) (checkPointerOverEarth s x y) in
  if negb (isDragging g) then with_gesture s g
  else apply_drag s g x y.

(** [onUp] (line 257) and the [touchend] listener (line 273). *)
Definition end_drag (g : gesture) : gesture :=
  {| isDragging := false; prev_x := prev_x g; prev_y := prev_y g;
     pointerOverEarth := pointerOverEarth g;
     cursor_grab := false; cursor_grabbing := false |}.

(** [Math.max(3, Math.min(10, z))] of [onWheel]. *)
Definition clamp_zoom (z : N) : N := num_max ⟪3⟫ (num_min ⟪10⟫ z).

(** [onWheel], line 258: [z += deltaY * .01], then clamp. *)
Definition onWheel (s : globe) (dy : N) : globe :=
  let v := g_view s in
  let c := camera_of v in
  with_view s
    {| camera_of := {| cam_z := clamp_zoom (cam_z c ⊕ dy ⊗ ⟪0.01⟫);
                       cam_aspect := cam_aspect c |};
       width := width v; height := height v;
       rect_left := rect_left v; rect_top := rect_top v |}.

(** The [pointerleave] listener, line 265: it clears the cursor classes
    and [pointerOverEarth], and leaves [isDragging] as it is. *)
Definition onPointerLeave (g : gesture) : gesture :=
  {| isDragging := isDragging g; prev_x := prev_x g; prev_y := prev_y g;
     pointerOverEarth := false; cursor_grab := false; cursor_grabbing := false |}.

(** The [touchstart] listener, lines 267-271. *)
Definition onTouchStart (s : globe) (x y : N) : globe :=
  if negb (checkPointerOverEarth s x y) then s
  else with_gesture s (begin_drag (g_gesture s) x y).

(** The [touchmove] listener, line 272: no hover update. *)
Definition onTouchMove (s : globe) (x y : N) : globe :=
  if negb (isDragging (g_gesture s)) then s
  else apply_drag s (g_gesture s) x y.

(** The canvas [pointermove] listener, lines 276-300: for a mouse, the
    hover update, then one more registration of the gallery listeners. *)
Definition onPointerMove (s : globe) (pt : pointer_type) (x y : N) : globe :=
  match pt with
  | PMouse =>
      let s' := with_gesture s (hover_cursor (g_gesture s) (checkPointerOverEarth s x y)) in
      {| g_view := g_view s'; g_spin := g_spin s'; g_gesture := g_gesture s';
         g_scene := g_scene s'; g_gallery := option_map register_swipe (g_gallery s') |}
  | _ => s
  end.

(** [resize], line 302: [camera.aspect = w/h] and [renderer.setSize(w, h)]. *)
Definition onResize (s : globe) (w h : N) : globe :=
  let v := g_view s in
  with_view s
    {| camera_of := {| cam_z := cam_z (camera_of v); cam_aspect := w ⊘ h |};
       width := w; height := h; rect_left := rect_left v; rect_top := rect_top v |}.

(** ** The animation frame *)

(** One planet of the [planets.forEach] of line 310. *)
Definition planet_step (p : planet) : planet :=
  let c := pl_cfg p in
  let a := pl_angle p ⊕ cfg_speed c in
  {| pl_cfg := c; pl_angle := a;
     pl_pos_x := math_cos a ⊗ cfg_distance c ⊗ ⟪0.5⟫;
     pl_pos_y := pl_pos_y p;
     pl_pos_z := num_neg (cfg_distance c) ⊕ math_sin a ⊗ ⟪2⟫;
     pl_rot_y := pl_rot_y p ⊕ ⟪0.005⟫;
     pl_map := pl_map p |}.

(** Lines 308-309, in their order: rotate by [vel], damp [vel], and add
    the idle rotation when no drag is under way. *)
Definition spin_frame (sp : spin) (dragging : bool) : spin :=
  let rx := rot_x sp ⊕ vel_x sp in
  let ry := rot_y sp ⊕ vel_y sp in
  let vx := vel_x sp ⊗ ⟪0.95⟫ in
  let vy := vel_y sp ⊗ ⟪0.95⟫ in
  {| rot_x := rx; rot_y := if negb dragging then ry ⊕ ⟪0.001⟫ else ry;
     vel_x := vx; vel_y := vy |}.

(** [animate], lines 306-313 (the frame callback; [requestAnimationFrame]
    re-arms it and [renderer.render] draws the state it leaves). *)
Definition animate (s : globe) : globe :=
  let sc := g_scene s in
  with_scene (with_spin s (spin_frame (g_spin s) (isDragging (g_gesture s))))
    {| planets := map planet_step (planets sc); stars := stars sc;
       stars_rot_y := stars_rot_y sc ⊕ ⟪0.0001⟫;
       material := material sc; pending := pending sc |}.

(** ** Texture loads *)

(** [applyTex(key, tex)], line 188. *)
Definition applyTex (m : earth_material) (k : tex_key) (url : string) : earth_material :=
  match k with
  | TexMap => {| mat_map := Some url; mat_bumpMap := mat_bumpMap m; mat_specularMap := mat_specularMap m |}
  | TexBumpMap => {| mat_map := mat_map m; mat_bumpMap := Some url; mat_specularMap := mat_specularMap m |}
  | TexSpecularMap => {| mat_map := mat_map m; mat_bumpMap := mat_bumpMap m; mat_specularMap := Some url |}
  end.

Definition set_planet_map (p : planet) : planet :=
  {| pl_cfg := pl_cfg p; pl_angle := pl_angle p; pl_pos_x := pl_pos_x p;
     pl_pos_y := pl_pos_y p; pl_pos_z := pl_pos_z p; pl_rot_y := pl_rot_y p;
     pl_map := Some (cfg_tex (pl_cfg p)) |}.

Definition is_pending (r : tex_request) (l : list tex_request) : bool :=
  if in_dec tex_request_eq_dec r l then true else false.

(** The completion of a load: the callbacks of [loadWithFallback]
    (lines 189-193: success applies the texture, a failed local load
    issues the remote one, a failed remote load has no callback) and of the
    planet loads (line 223, success callback only). *)
Definition onTextureLoaded (s : globe) (r : tex_request) (ok : bool) : globe :=
  let sc := g_scene s in
  if negb (is_pending r (pending sc)) then s else
  let rest := remove tex_request_eq_dec r (pending sc) in
  let mk m ps pend :=
    with_scene s {| planets := ps; stars := stars sc; stars_rot_y := stars_rot_y sc;
                    material := m; pending := pend |} in
  match r with
  | EarthTex k Local =>
      if ok then mk (applyTex (material sc) k (earth_url k Local)) (planets sc) rest
      else mk (material sc) (planets sc) (rest ++ [EarthTex k Remote])
  | EarthTex k Remote =>
      if ok then mk (applyTex (material sc) k (earth_url k Remote)) (planets sc) rest
      else mk (material sc) (planets sc) rest
  | PlanetTex i =>
      if ok then mk (material sc) (update_nth i set_planet_map (planets sc)) rest
      else mk (material sc) (planets sc) rest
  end.

(** ** The controller *)

Definition globe_step (s : globe) (ev : globe_event) : globe :=
  match ev with
  | MouseDown x y => onDown s x y
  | MouseMove x y => onMove s x y
  | MouseUp => with_gesture s (end_drag (g_gesture s))
  | PointerEnter => s
  | PointerLeave => with_gesture s (onPointerLeave (g_gesture s))
  | PointerMove pt x y => onPointerMove s pt x y
  | Wheel dy => onWheel s dy
  | TouchStart x y => onTouchStart s x y
  | TouchMove x y => onTouchMove s x y
  | TouchEnd => with_gesture s (end_drag (g_gesture s))
  | WindowResize w h => onResize s w h
  | AnimationFrame => animate s
  | TextureLoaded r ok => onTextureLoaded s r ok
  end.

(** ** Construction, lines 167-237 *)

Definition planetConfigs : list planet_config := [
  {| cfg_size := ⟪0.4⟫; cfg_distance := ⟪8⟫; cfg_speed := ⟪0.001⟫;
     cfg_tex := "./images/earths-horizon.jpg"; cfg_x := ⟪-3⟫; cfg_y := ⟪2⟫ |};
  {| cfg_size := ⟪0.6⟫; cfg_distance := ⟪10⟫; cfg_speed := ⟪0.0008⟫;
     cfg_tex := "./images/cupola-sunset.jpg"; cfg_x := ⟪4⟫; cfg_y := ⟪-2⟫ |};
  {| cfg_size := ⟪0.3⟫; cfg_distance := ⟪12⟫; cfg_speed := ⟪0.0012⟫;
     cfg_tex := "./images/nanoracks-cupola.jpg"; cfg_x := ⟪-5⟫; cfg_y := ⟪-3⟫ |};
  {| cfg_size := ⟪0.5⟫; cfg_distance := ⟪9⟫; cfg_speed := ⟪0.0009⟫;
     cfg_tex := "./images/ISS-training.jpg"; cfg_x := ⟪3⟫; cfg_y := ⟪3⟫ |}
]%string.

(** [Math.random()] is the stream [rand]: its [k]-th value is the [k]-th
    draw of the page.  The planets draw first (their [angle]), then the
    stars, three draws a point, in the order the arguments of [push] are
    evaluated. *)
Definition init_planet (rand : nat -> N) (i : nat) (cfg : planet_config) : planet :=
  {| pl_cfg := cfg; pl_angle := rand i ⊗ ⟪3.141592653589793⟫ ⊗ ⟪2⟫;
     pl_pos_x := cfg_x cfg; pl_pos_y := cfg_y cfg; pl_pos_z := num_neg (cfg_distance cfg);
     pl_rot_y := ⟪0⟫; pl_map := None |}.

Fixpoint init_planets (rand : nat -> N) (i : nat) (cfgs : list planet_config) : list planet :=
  match cfgs with
  | [] => []
  | c :: cfgs => init_planet rand i c :: init_planets rand (S i) cfgs
  end.

Definition star_coord (r : N) : N := (r ⊖ ⟪0.5⟫) ⊗ ⟪2000⟫.

(** The loop of line 233, [n] points from draw [k] on. *)
Fixpoint star_vertices (rand : nat -> N) (k n : nat) : list N :=
  match n with
  | O => []
  | S n => star_coord (rand k) :: star_coord (rand (S k)) :: star_coord (rand (S (S k)))
           :: star_vertices rand (S (S (S k))) n
  end.

Definition initial_requests : list tex_request :=
  [EarthTex TexMap Local; EarthTex TexBumpMap Local; EarthTex TexSpecularMap Local;
   PlanetTex 0; PlanetTex 1; PlanetTex 2; PlanetTex 3].

(** The scene as lines 169-237 build it on a [w] by [h] root. *)
Definition globe_init (w h left top : N) (gal : option (@gallery N)) (rand : nat -> N) : globe :=
  {| g_view := {| camera_of := {| cam_z := ⟪5⟫; cam_aspect := w ⊘ h |};
                  width := w; height := h; rect_left := left; rect_top := top |};
     g_spin := {| rot_x := ⟪0⟫; rot_y := ⟪0⟫; vel_x := ⟪0⟫; vel_y := ⟪0⟫ |};
     g_gesture := {| isDragging := false; prev_x := ⟪0⟫; prev_y := ⟪0⟫;
                     pointerOverEarth := false; cursor_grab := false;
                     cursor_grabbing := false |};
     g_scene := {| planets := init_planets rand 0 planetConfigs;
                   stars := star_vertices rand 4 8000;
                   stars_rot_y := ⟪0⟫;
                   material := {| mat_map := None; mat_bumpMap := None;
                                  mat_specularMap := None |};
                   pending := initial_requests |};
     g_gallery := gal |}.

(** The block guarded by [if (root && window.THREE)]: [root] is the size
    of [#three-root] when the element exists.  The block ends by calling
    [animate()] (line 314), so the first frame runs at mount. *)
Definition globe_mount (root : option (N * N)) (three : bool) (left top : N)
    (gal : option (@gallery N)) (rand : nat -> N) : option globe :=
  match root with
  | Some (w, h) => if three then Some (animate (globe_init w h left top gal rand)) else None
  | None => None
  end.

End Globe.

Arguments EarthPicker N : clear implicits.

(** * Properties of the vanilla globe *)

Local Open Scope Q_scope.

(** ** Concrete instances at [Q] *)

(** The ray through normalized device coordinates [(px, py)] from a camera
    at [(0, 0, z)] looking down [-z] with a vertical field of view of 75
    degrees has direction [(px * aspect * t, py * t, -1)], [t] the tangent
    of 37.5 degrees; it meets the sphere of radius 1.5 at the origin iff its
    distance to the origin is at most 1.5.  three.js intersects the 64x64
    triangulation inscribed in that sphere. *)
Definition tan_half_fov : Q := 0.7673269879789604.

Definition sphere_pick (c : @camera Q) (rx ry px py : Q) : bool :=
  let a := px * cam_aspect c * tan_half_fov in
  let b := py * tan_half_fov in
  Qle_bool (cam_z c * cam_z c * (a * a + b * b)) ((9 # 4) * (a * a + b * b + 1)).

#[export] Instance sphere_picker : EarthPicker Q := sphere_pick.

(** A mounted controller: an 800x600 canvas at the page's origin, no
    gallery, every random draw one half. *)
Definition demo_globe : @globe Q := animate (globe_init 800 600 0 0 None (fun _ => 1 # 2)).

(** ** Projections of the handlers *)

(** Unfold the handlers of [globe_step] and split their tests. *)
Ltac globe_cases :=
  cbn [globe_step] in *;
  unfold onDown, onMove, onTouchStart, onTouchMove, onPointerMove, onWheel,
    onResize, animate, onTextureLoaded, apply_drag in *;
  repeat (case_bool; cbn in *);
  cbn in *.

(** Case on the one raycast left in the goal. *)
Ltac destruct_pick :=
  match goal with
  | |- context [checkPointerOverEarth ?a ?x ?y] => destruct (checkPointerOverEarth a x y)
  end.

(** The layer [key] of the Earth material, [earthMaterial[key]]. *)
Definition layer (m : earth_material) (k : tex_key) : option string :=
  match k with
  | TexMap => mat_map m
  | TexBumpMap => mat_bumpMap m
  | TexSpecularMap => mat_specularMap m
  end.

Lemma layer_applyTex m k k' url :
  layer (applyTex m k url) k' = if tex_key_eqb k k' then Some url else layer m k'.
Proof. destruct k, k'; reflexivity. Qed.

Lemma is_pending_in r l : In r l -> is_pending r l = true.
Proof. unfold is_pending. destruct (in_dec _ r l); tauto. Qed.

Lemma is_pending_notin r l : ~ In r l -> is_pending r l = false.
Proof. unfold is_pending. destruct (in_dec _ r l); tauto. Qed.

Section Generic.
Context {N : Type} `{JSNum N} `{MathTrig N} `{EarthPicker N}.

Lemma animate_gesture (s : @globe N) : g_gesture (animate s) = g_gesture s.
Proof. reflexivity. Qed.

Lemma run_frames_gesture (s : @globe N) n :
  g_gesture (run globe_step s (repeat AnimationFrame n)) = g_gesture s.
Proof.
  revert s; induction n as [|n IH]; intros s; [reflexivity|].
  cbn [repeat]. rewrite run_cons, IH. apply animate_gesture.
Qed.

(** [n] frames without input apply [spin_frame] [n] times, with the drag
    flag the frames leave alone. *)
Lemma frames_spin_iter (s : @globe N) n :
  g_spin (run globe_step s (repeat AnimationFrame n)) =
  Nat.iter n (fun sp => spin_frame sp (isDragging (g_gesture s))) (g_spin s).
Proof.
  revert s; induction n as [|n IH]; intros s; [reflexivity|].
  cbn [repeat]. rewrite run_cons, IH, Nat.iter_succ_r. reflexivity.
Qed.

(** Only the wheel moves the camera. *)
Lemma cam_z_step (s : @globe N) ev :
  cam_z (camera_of (g_view (globe_step s ev))) =
  match ev with
  | Wheel dy => clamp_zoom (cam_z (camera_of (g_view s)) ⊕ dy ⊗ ⟪0.01⟫)
  | _ => cam_z (camera_of (g_view s))
  end.
Proof.
  destruct ev as [| | | | |pt| | | | | | |r ok]; try destruct pt; try destruct r as [k [|]|i];
    globe_cases; reflexivity.
Qed.

(** C1: a press that the raycast does not place on the Earth is ignored:
    [onDown] and the [touchstart] listener return before touching any
    state, so the controller is left exactly as it was. *)
Theorem press_miss_unchanged (s : @globe N) x y :
  checkPointerOverEarth s x y = false ->
  globe_step s (MouseDown x y) = s /\ globe_step s (TouchStart x y) = s.
Proof. intros Hm. cbn [globe_step]. unfold onDown, onTouchStart. now rewrite Hm. Qed.

(** C2: a press on the Earth at [(x0, y0)] starts a drag, and the next
    move to [(x1, y1)], by mouse or by touch, sets the rotation velocity to
    exactly [((y1 - y0) * .005, (x1 - x0) * .005)]: vertical motion drives
    the x axis, horizontal motion the y axis, and the Earth's rotation
    itself does not change until the next frame. *)
Theorem drag_sets_velocity (s : @globe N) x0 y0 x1 y1 :
  checkPointerOverEarth s x0 y0 = true ->
  (let s1 := globe_step s (MouseDown x0 y0) in
   let s2 := globe_step s1 (MouseMove x1 y1) in
   isDragging (g_gesture s1) = true /\
   g_spin s2 = {| rot_x := rot_x (g_spin s); rot_y := rot_y (g_spin s);
                  vel_x := (y1 ⊖ y0) ⊗ ⟪0.005⟫; vel_y := (x1 ⊖ x0) ⊗ ⟪0.005⟫ |}) /\
  (let s1 := globe_step s (TouchStart x0 y0) in
   let s2 := globe_step s1 (TouchMove x1 y1) in
   isDragging (g_gesture s1) = true /\
   g_spin s2 = {| rot_x := rot_x (g_spin s); rot_y := rot_y (g_spin s);
                  vel_x := (y1 ⊖ y0) ⊗ ⟪0.005⟫; vel_y := (x1 ⊖ x0) ⊗ ⟪0.005⟫ |}).
Proof.
  intros Hh. cbn [globe_step]. unfold onDown, onTouchStart. rewrite Hh.
  cbn. unfold onMove. cbn.
  repeat case_bool; cbn; auto.
Qed.

(** C5: leaving the canvas does not end a drag: the [pointerleave]
    listener clears the cursor classes and [pointerOverEarth] but leaves
    [isDragging] set, so the next [mousemove] still sets the velocity from
    the displacement since [prev], with no button held. *)
Theorem pointerleave_keeps_drag (s : @globe N) x y :
  isDragging (g_gesture s) = true ->
  let s1 := globe_step s PointerLeave in
  isDragging (g_gesture s1) = true /\
  g_spin (globe_step s1 (MouseMove x y)) =
    {| rot_x := rot_x (g_spin s); rot_y := rot_y (g_spin s);
       vel_x := (y ⊖ prev_y (g_gesture s)) ⊗ ⟪0.005⟫;
       vel_y := (x ⊖ prev_x (g_gesture s)) ⊗ ⟪0.005⟫ |}.
Proof.
  intros Hd. cbn. rewrite Hd. split; [reflexivity|].
  unfold onMove. cbn. rewrite Hd. cbn.
  repeat case_bool; reflexivity.
Qed.

Lemma pointer_move_gallery (s : @globe N) x y :
  g_gallery (globe_step s (PointerMove PMouse x y)) = option_map register_swipe (g_gallery s).
Proof. reflexivity. Qed.

(** C6: the canvas [pointermove] listener leaks listeners: every mouse
    move over the canvas registers one more set of swipe listeners on the
    gallery container, so after [n] moves the container carries [n] more
    closures, while its scroll state is untouched. *)
Theorem pointer_moves_leak_listeners (s : @globe N) g (x y : N) n :
  g_gallery s = Some g ->
  exists g', g_gallery (run globe_step s (repeat (PointerMove PMouse x y) n)) = Some g' /\
             List.length (listeners g') = (List.length (listeners g) + n)%nat /\ cont g' = cont g.
Proof.
  revert s g; induction n as [|n IH]; intros s g Hg.
  - exists g. rewrite Nat.add_0_r. auto.
  - cbn [repeat]. rewrite run_cons.
    destruct (IH (globe_step s (PointerMove PMouse x y)) (register_swipe g)) as (g' & Hg' & Hl & Hc).
    { now rewrite pointer_move_gallery, Hg. }
    exists g'. split; [exact Hg'|]. rewrite Hl, Hc. cbn.
    rewrite length_app. cbn. split; [lia | reflexivity].
Qed.

Lemma onTextureLoaded_absent (s : @globe N) r ok :
  ~ In r (pending (g_scene s)) -> onTextureLoaded s r ok = s.
Proof. intros Hn. unfold onTextureLoaded. now rewrite (is_pending_notin _ _ Hn). Qed.

(** The completion of an outstanding load of an Earth layer: the texture
    is applied on success, and a failed local load issues the remote one. *)
Lemma onTextureLoaded_earth (s : @globe N) k t ok :
  In (EarthTex k t) (pending (g_scene s)) ->
  let s1 := onTextureLoaded s (EarthTex k t) ok in
  material (g_scene s1) =
    (if ok then applyTex (material (g_scene s)) k (earth_url k t) else material (g_scene s)) /\
  pending (g_scene s1) =
    remove tex_request_eq_dec (EarthTex k t) (pending (g_scene s)) ++
      (match t, ok with Local, false => [EarthTex k Remote] | _, _ => [] end).
Proof.
  intros Hin. unfold onTextureLoaded. rewrite (is_pending_in _ _ Hin).
  destruct t, ok; cbn; rewrite ?app_nil_r; auto.
Qed.

(** C7: the two-tier texture fallback of [loadWithFallback]: once the
    local and then the remote load of a layer have completed, the layer
    holds the local texture if the local load succeeded (the remote one is
    then never requested), else the remote texture if that load succeeded,
    else whatever it held before; the other layers are untouched and no
    request for the layer is left outstanding. *)
Theorem texture_fallback (s : @globe N) k ok1 ok2 :
  In (EarthTex k Local) (pending (g_scene s)) ->
  ~ In (EarthTex k Remote) (pending (g_scene s)) ->
  let s' := run globe_step s [TextureLoaded (EarthTex k Local) ok1;
                              TextureLoaded (EarthTex k Remote) ok2] in
  layer (material (g_scene s')) k =
    (if ok1 then Some (earth_url k Local)
     else if ok2 then Some (earth_url k Remote)
     else layer (material (g_scene s)) k) /\
  (forall k', k' <> k -> layer (material (g_scene s')) k' = layer (material (g_scene s)) k') /\
  ~ In (EarthTex k Remote) (pending (g_scene s')).
Proof.
  intros Hl Hr. cbv zeta. cbn [run fold_left globe_step].
  destruct (onTextureLoaded_earth s k Local ok1 Hl) as [Hm1 Hp1].
  set (s1 := onTextureLoaded s (EarthTex k Local) ok1) in *.
  assert (Hkk : forall k', k' <> k -> tex_key_eqb k k' = false).
  { intros k' Hne. destruct k, k'; cbn; congruence. }
  assert (Hkk' : tex_key_eqb k k = true) by (destruct k; reflexivity).
  destruct ok1.
  - assert (Hn : ~ In (EarthTex k Remote) (pending (g_scene s1))).
    { rewrite Hp1, app_nil_r. intros Hin. apply in_remove in Hin. tauto. }
    rewrite (onTextureLoaded_absent _ _ _ Hn), Hm1, layer_applyTex, Hkk'.
    split; [reflexivity | split; [|exact Hn]].
    intros k' Hne. now rewrite layer_applyTex, (Hkk k' Hne).
  - assert (Hin : In (EarthTex k Remote) (pending (g_scene s1))).
    { rewrite Hp1. apply in_or_app. right. now left. }
    destruct (onTextureLoaded_earth s1 k Remote ok2 Hin) as [Hm2 Hp2].
    rewrite Hm2, Hp2, Hm1, app_nil_r.
    split; [|split; [|apply remove_In]].
    + destruct ok2; [|reflexivity]. now rewrite layer_applyTex, Hkk'.
    + intros k' Hne. destruct ok2; [|reflexivity].
      now rewrite layer_applyTex, (Hkk k' Hne).
Qed.

(** Every listener but [mouseup] and [touchend] leaves a drag on. *)
Lemma dragging_step (s : @globe N) ev :
  isDragging (g_gesture s) = true -> ev <> MouseUp -> ev <> TouchEnd ->
  isDragging (g_gesture (globe_step s ev)) = true.
Proof.
  intros Hd Hu Ht. destruct ev as [x y|x y| | | |pt x y|dy|x y|x y| |w h| |r ok];
    try destruct pt; try destruct r as [k [|]|i]; globe_cases; rewrite ?Hd in *; auto; congruence.
Qed.

(** C37: a drag ends only on a [mouseup] or a [touchend] delivered to the
    canvas.  Once it has started, every sequence of other events (the
    pointer leaving the canvas, moves, wheel turns, frames, texture loads)
    leaves it on, and the idle rotation stays off.  A button released
    outside the canvas, or a touch the browser cancels ([touchcancel] has
    no listener), therefore never ends the drag. *)
Theorem only_release_ends_drag (s : @globe N) evs :
  isDragging (g_gesture s) = true ->
  Forall (fun ev => ev <> MouseUp /\ ev <> TouchEnd) evs ->
  isDragging (g_gesture (run globe_step s evs)) = true.
Proof.
  intros Hd Hevs. revert s Hd. induction Hevs as [|ev evs [Hu Ht] _ IH]; intros s Hd; [exact Hd|].
  rewrite run_cons. apply IH. apply dragging_step; assumption.
Qed.

(** Only frames and texture loads change the scene. *)
Lemma scene_step (s : @globe N) ev :
  g_scene (globe_step s ev) =
  match ev with
  | AnimationFrame => g_scene (animate s)
  | TextureLoaded r ok => g_scene (onTextureLoaded s r ok)
  | _ => g_scene s
  end.
Proof.
  destruct ev as [x y|x y| | | |pt x y|dy|x y|x y| |w h| |r ok]; cbn [globe_step]; try reflexivity.
  - unfold onDown. destruct (checkPointerOverEarth s x y); reflexivity.
  - unfold onMove, apply_drag. destruct (isDragging _); reflexivity.
  - destruct pt; reflexivity.
  - unfold onTouchStart. destruct (checkPointerOverEarth s x y); reflexivity.
  - unfold onTouchMove, apply_drag. destruct (isDragging _); reflexivity.
Qed.

End Generic.

(** ** Arithmetic at exact rationals *)

Section Rational.
Context `{EarthPicker Q} `{MathTrig Q}.

Lemma clamp_zoom_range (z : Q) : 3 <= clamp_zoom z <= 10.
Proof.
  unfold clamp_zoom; num_Q. split.
  - apply Q.le_max_l.
  - apply Q.max_lub; [lra | apply Q.le_min_l].
Qed.

(** C3: the camera distance stays within [3, 10] in every state the
    controller reaches from its construction, whatever the wheel deltas:
    it starts at 5 and [onWheel] clamps after every change. *)
Theorem zoom_in_range root three l t gal rand (s0 s : @globe Q) :
  globe_mount root three l t gal rand = Some s0 ->
  reachable globe_step s0 s ->
  3 <= cam_z (camera_of (g_view s)) <= 10.
Proof.
  intros Hm R. pattern s. refine (reachable_invariant globe_step _ _ _ _ s R).
  - destruct root as [[w h]|]; [|discriminate]. destruct three; [|discriminate].
    injection Hm as <-. cbn. lra.
  - intros s' ev Hs. rewrite cam_z_step. destruct ev; auto using clamp_zoom_range.
Qed.

(** Frames scale the velocity by [.95] on both axes, dragging or not. *)
Lemma frames_velocity (s : @globe Q) n :
  let sp := g_spin (run globe_step s (repeat AnimationFrame n)) in
  vel_x sp == vel_x (g_spin s) * qpow 0.95 n /\ vel_y sp == vel_y (g_spin s) * qpow 0.95 n.
Proof.
  revert s; induction n as [|n IH]; intros s; cbn [repeat qpow].
  - cbn. split; ring.
  - rewrite run_cons. destruct (IH (globe_step s AnimationFrame)) as [Hx Hy].
    cbv zeta in *. rewrite Hx, Hy. cbn; num_Q. split; ring.
Qed.

(** C4: with no input, [n] frames turn the Earth by the geometric sum of
    the damped velocity plus [n] idle increments: after [n] frames the
    velocity is [v * .95^n], the pitch has grown by [20 v_x (1 - .95^n)]
    and the yaw by [20 v_y (1 - .95^n) + .001 n]. *)
Theorem idle_frames_closed_form (s : @globe Q) n :
  isDragging (g_gesture s) = false ->
  let sp := g_spin s in
  let sp' := g_spin (run globe_step s (repeat AnimationFrame n)) in
  vel_x sp' == vel_x sp * qpow 0.95 n /\
  vel_y sp' == vel_y sp * qpow 0.95 n /\
  rot_x sp' == rot_x sp + 20 * vel_x sp * (1 - qpow 0.95 n) /\
  rot_y sp' == rot_y sp + 20 * vel_y sp * (1 - qpow 0.95 n) + 0.001 * Qnat n.
Proof.
  intros Hd. cbv zeta. destruct (frames_velocity s n) as [Hvx Hvy].
  split; [exact Hvx|]. split; [exact Hvy|].
  revert s Hd Hvx Hvy; induction n as [|n IH]; intros s Hd _ _; cbn [repeat qpow].
  - unfold Qnat; cbn. split; ring.
  - rewrite run_cons.
    assert (Hd' : isDragging (g_gesture (globe_step s AnimationFrame)) = false) by exact Hd.
    destruct (frames_velocity (globe_step s AnimationFrame) n) as [Hvx Hvy].
    destruct (IH _ Hd' Hvx Hvy) as [Hx Hy].
    rewrite Hx, Hy, Qnat_succ. cbn. rewrite Hd. cbn; num_Q. split; ring.
Qed.

End Rational.

(** ** The star field and the planets *)

Section Scene.
Context {N : Type} `{JSNum N} `{MathTrig N} `{EarthPicker N}.

Lemma stars_step (s : @globe N) ev : stars (g_scene (globe_step s ev)) = stars (g_scene s).
Proof.
  rewrite scene_step. destruct ev as [| | | | | | | | | | | |r ok]; try reflexivity.
  unfold onTextureLoaded. destruct (is_pending r (pending (g_scene s))); [|reflexivity].
  destruct r as [k [|]|i]; destruct ok; reflexivity.
Qed.

Lemma length_star_vertices (rand : nat -> N) k n : List.length (star_vertices rand k n) = (3 * n)%nat.
Proof. revert k; induction n as [|n IH]; intros k; cbn; [reflexivity|]. rewrite IH. lia. Qed.

(** [n] frames run [planet_step] [n] times on every planet. *)
Lemma frames_planets (s : @globe N) n :
  planets (g_scene (run globe_step s (repeat AnimationFrame n))) =
  map (Nat.iter n planet_step) (planets (g_scene s)).
Proof.
  revert s; induction n as [|n IH]; intros s; cbn [repeat].
  - symmetry. apply map_id.
  - rewrite run_cons, IH. cbn. rewrite map_map. apply map_ext. intros p. symmetry. apply Nat.iter_succ_r.
Qed.

End Scene.

Section RationalScene.
Context `{MathTrig Q} `{EarthPicker Q}.

Lemma star_coord_range r : 0 <= r < 1 -> -1000 <= star_coord r < 1000.
Proof. unfold star_coord; num_Q. intros Hr. lra. Qed.

Lemma star_vertices_range (rand : nat -> Q) k n :
  (forall j, 0 <= rand j < 1) -> Forall (fun c => -1000 <= c < 1000) (star_vertices rand k n).
Proof.
  intros Hr. revert k; induction n as [|n IH]; intros k; cbn; [constructor|].
  repeat constructor; try apply star_coord_range, Hr. apply IH.
Qed.

(** C31: with [Math.random()] in [[0, 1)], the star field of every state
    the controller reaches is the 8000 points it was built with, each
    coordinate in [[-1000, 1000)]: the cube of side 2000 of the
    specification, which no listener or frame moves (frames turn the
    field as a whole). *)
Theorem star_field_in_cube (rand : nat -> Q) root three l t gal (s0 s : @globe Q) :
  (forall j, 0 <= rand j < 1) ->
  globe_mount root three l t gal rand = Some s0 -> reachable globe_step s0 s ->
  List.length (stars (g_scene s)) = 24000%nat /\
  Forall (fun c => -1000 <= c < 1000) (stars (g_scene s)).
Proof.
  intros Hr Hm R. induction R as [|s' ev R IH]; [|rewrite stars_step; exact IH].
  destruct root as [[w h]|]; [|discriminate]. destruct three; [|discriminate].
  injection Hm as <-. cbn [animate with_scene with_spin g_scene stars globe_init].
  split; [rewrite length_star_vertices; reflexivity | apply star_vertices_range, Hr].
Qed.

(** One planet after [n] frames: its phase has grown by [n] times its
    speed, and from the first frame on its position is the function of
    the phase of line 310. *)
Lemma planet_iter (p : @planet Q) n :
  let p' := Nat.iter n planet_step p in
  pl_cfg p' = pl_cfg p /\ pl_angle p' == pl_angle p + Qnat n * cfg_speed (pl_cfg p) /\
  (n <> O -> pl_pos_x p' = math_cos (pl_angle p') * cfg_distance (pl_cfg p) * 0.5 /\
             pl_pos_z p' = - cfg_distance (pl_cfg p) + math_sin (pl_angle p') * 2).
Proof.
  induction n as [|n IH]; cbv zeta in *.
  - change (Nat.iter 0 planet_step p) with p. split; [reflexivity|]. split; [unfold Qnat; cbn [Z.of_nat inject_Z]; ring | congruence].
  - destruct IH as (Hc & Ha & _). rewrite Nat.iter_succ. cbn [planet_step pl_cfg pl_angle pl_pos_x pl_pos_z].
    rewrite Hc. split; [reflexivity|]. split; [|intros _; num_Q; split; reflexivity].
    num_Q. rewrite Ha, Qnat_succ. ring.
Qed.

(** C32: the planets move as the specification says: after [n] frames
    without input each planet keeps its configuration, its phase has
    grown by exactly [n] times its speed, and (from the first frame on)
    its position is [cos(phase) * distance * .5] across and
    [-distance + sin(phase) * 2] in depth, a function of the phase alone. *)
Theorem planets_follow_phase (s : @globe Q) n :
  Forall2 (fun p p' =>
      pl_cfg p' = pl_cfg p /\ pl_angle p' == pl_angle p + Qnat n * cfg_speed (pl_cfg p) /\
      (n <> O -> pl_pos_x p' = math_cos (pl_angle p') * cfg_distance (pl_cfg p) * 0.5 /\
                 pl_pos_z p' = - cfg_distance (pl_cfg p) + math_sin (pl_angle p') * 2))
    (planets (g_scene s)) (planets (g_scene (run globe_step s (repeat AnimationFrame n)))).
Proof.
  rewrite frames_planets. apply Forall2_map_self. intros p _. apply planet_iter.
Qed.

End RationalScene.

(** ** Witnesses, on the demo controller *)

Definition dragged_right : @globe Q :=
  run globe_step demo_globe [MouseDown 400 300; MouseMove 500 300; MouseUp].

Definition demo_with_gallery : @globe Q :=
  animate (globe_init 800 600 0 0
    (Some {| listeners := []; cont := {| scroll_left := 0; dragging_class := false |} |})
    (fun _ => 1 # 2)).

Lemma press_miss_unchanged_witness :
  globe_step demo_globe (MouseDown 5 5) = demo_globe /\
  globe_step demo_globe (TouchStart 5 5) = demo_globe.
Proof. apply press_miss_unchanged. vm_compute. reflexivity. Defined.

(** The drag of the specification: 100 pixels to the right, none down. *)
Lemma drag_sets_velocity_witness :
  vel_x (g_spin (run globe_step demo_globe [MouseDown 400 300; MouseMove 500 300])) == 0 /\
  vel_y (g_spin (run globe_step demo_globe [MouseDown 400 300; MouseMove 500 300])) == 0.5.
Proof.
  destruct (drag_sets_velocity demo_globe 400 300 500 300) as [[_ E] _].
  - vm_compute. reflexivity.
  - cbn [run fold_left]. rewrite E. vm_compute. split; reflexivity.
Defined.

(** The wheel deltas of the specification, from distance 5. *)
Lemma zoom_in_range_witness :
  cam_z (camera_of (g_view (globe_step demo_globe (Wheel (-10000))))) == 3 /\
  cam_z (camera_of (g_view (globe_step demo_globe (Wheel 10000)))) == 10 /\
  3 <= cam_z (camera_of (g_view (globe_step demo_globe (Wheel (-10000))))) <= 10.
Proof.
  split; [vm_compute; reflexivity|]. split; [vm_compute; reflexivity|].
  apply (zoom_in_range (Some (800, 600)) true 0 0 None (fun _ => 1 # 2) demo_globe).
  - reflexivity.
  - apply reach_step. apply reach_init.
Defined.

Lemma idle_frames_closed_form_witness :
  rot_y (g_spin (run globe_step dragged_right (repeat AnimationFrame 3))) == 1.43025.
Proof.
  destruct (idle_frames_closed_form dragged_right 3) as (_ & _ & _ & Hy).
  - vm_compute. reflexivity.
  - rewrite Hy. vm_compute. reflexivity.
Defined.

Lemma pointerleave_keeps_drag_witness :
  isDragging (g_gesture (run globe_step demo_globe [MouseDown 400 300; PointerLeave])) = true /\
  vel_y (g_spin (run globe_step demo_globe [MouseDown 400 300; PointerLeave; MouseMove 300 300]))
    == -0.5.
Proof.
  destruct (pointerleave_keeps_drag (globe_step demo_globe (MouseDown 400 300)) 300 300) as [Hd E].
  - vm_compute. reflexivity.
  - split; [exact Hd|]. cbn [run fold_left]. rewrite E. vm_compute. reflexivity.
Defined.

Lemma pointer_moves_leak_listeners_witness :
  exists g', g_gallery (run globe_step demo_with_gallery (repeat (PointerMove PMouse 10 10) 3)) = Some g' /\
             List.length (listeners g') = 3%nat.
Proof.
  destruct (pointer_moves_leak_listeners demo_with_gallery
              {| listeners := []; cont := {| scroll_left := 0; dragging_class := false |} |}
              10 10 3 eq_refl) as (g' & Hg & Hl & _).
  exists g'. split; [exact Hg | exact Hl].
Defined.

(** The local texture fails and the remote one loads. *)
Lemma texture_fallback_witness :
  layer (material (g_scene (run globe_step demo_globe
           [TextureLoaded (EarthTex TexMap Local) false;
            TextureLoaded (EarthTex TexMap Remote) true]))) TexMap =
  Some (earth_url TexMap Remote).
Proof.
  destruct (texture_fallback demo_globe TexMap false true) as [E _].
  - cbn. tauto.
  - cbn. intuition discriminate.
  - exact E.
Defined.

(** The stars of the demo controller after a press and a frame. *)
Lemma star_field_in_cube_witness :
  List.length (stars (g_scene (run globe_step demo_globe [MouseDown 400 300; AnimationFrame]))) = 24000%nat.
Proof.
  apply (star_field_in_cube (fun _ => 1 # 2) (Some (800, 600)) true 0 0 None demo_globe);
    [intros j; split; lra | reflexivity | apply reachable_run; eexists; reflexivity].
Defined.

(** A press on the Earth, the pointer leaving the canvas (where the button
    is released) and ten frames: the drag is still on. *)
Lemma only_release_ends_drag_witness :
  isDragging (g_gesture (run globe_step (globe_step demo_globe (MouseDown 400 300))
    (PointerLeave :: repeat AnimationFrame 10))) = true.
Proof.
  apply only_release_ends_drag; [vm_compute; reflexivity|].
  repeat constructor; discriminate.
Defined.
