(* ===== verification/GlobeReact.v ===== *)
(** * GlobeReact: the globe of the React page [src/homepage.js]

    The [useEffect] of [Home] (lines 9-239) builds the same scene as the
    vanilla script, with coloured planets and 10000 stars, registers mouse,
    wheel, touch and resize listeners with no raycast gate, starts the
    [animate] loop and returns a cleanup function.  [home] holds the
    effect's closure variables and the lifecycle of what it allocated:
    whether the listeners are attached, whether the canvas is still a child
    of the mount element, whether the scene is disposed, whether an
    animation frame is scheduled, how many frames were rendered after
    disposal and the exceptions the cleanup let escape.

    The second half relates the two globes: [corresponds] holds between a
    vanilla controller and a React one that agree on everything a mouse
    user sees move (camera distance, the Earth's rotation and velocity, the
    drag state and its last point, the planets' motion, the stars'
    rotation).  The refinement theorem shows the React handlers are the
    vanilla ones with the raycast gate removed; the lifecycle theorems show
    what the React cleanup does and does not undo. *)

From Stdlib Require Import QArith List Bool ZArith Arith Lia.
From S2P Require Import Prelude JsNum GallerySwipe Globe.
Import ListNotations.
Local Open Scope cupola_scope.

(** What [Node.removeChild] throws for a node that is not a child. *)
Inductive js_error := NotFoundError.

Section GlobeReact.
Context {N : Type} `{JSNum N} `{MathTrig N}.

(** An entry of [planetConfigs] (lines 56-61): a colour, no texture. *)
Record hp_config := {
  hp_size : N;
  hp_distance : N;
  hp_speed : N;
  hp_color : Z;
  hp_x : N;
  hp_y : N
}.

Record hp_planet := {
  hp_cfg : hp_config;
  hp_angle : N;
  hp_pos_x : N;
  hp_pos_y : N;
  hp_pos_z : N;
  hp_rot_y : N
}.

Record home := {
  h_camera : @camera N;
  h_width : N;
  h_height : N;
  h_spin : @spin N;                 (** [earth.rotation] and [rotationVelocity] *)
  h_isDragging : bool;
  h_prev_x : N;                     (** [previousMousePosition] *)
  h_prev_y : N;
  h_touch_x : N;                    (** [touchStartX], [touchStartY] *)
  h_touch_y : N;
  h_planets : list hp_planet;
  h_stars : list N;
  h_stars_rot_y : N;
  h_isLoading : bool;               (** the React state [isLoading] *)
  h_listening : bool;               (** the listeners are attached *)
  h_canvas_attached : bool;         (** [renderer.domElement] is in [currentMount] *)
  h_disposed : bool;                (** geometries, materials and renderer disposed *)
  h_raf_pending : bool;             (** an [animate] callback is scheduled *)
  h_renders_disposed : nat;         (** frames rendered after disposal *)
  h_uncaught : list js_error        (** exceptions thrown out of the cleanup *)
}.

Inductive home_event :=
| HMouseDown (clientX clientY : N)
| HMouseMove (clientX clientY : N)
| HMouseUp
| HWheel (deltaY : N)
| HTouchStart (clientX clientY : N)
| HTouchMove (clientX clientY : N)
| HTouchEnd
| HResize (innerWidth innerHeight : N)
| HFrame                            (** the scheduled [animate] callback runs *)
| HCleanup.                         (** React runs the effect's cleanup *)

(** Record update, one field group at a time. *)
Definition set_drag (h : home) (d : bool) (px py tx ty : N) : home :=
  {| h_camera := h_camera h; h_width := h_width h; h_height := h_height h;
     h_spin := h_spin h; h_isDragging := d; h_prev_x := px; h_prev_y := py;
     h_touch_x := tx; h_touch_y := ty; h_planets := h_planets h; h_stars := h_stars h;
     h_stars_rot_y := h_stars_rot_y h; h_isLoading := h_isLoading h;
     h_listening := h_listening h; h_canvas_attached := h_canvas_attached h;
     h_disposed := h_disposed h; h_raf_pending := h_raf_pending h;
     h_renders_disposed := h_renders_disposed h; h_uncaught := h_uncaught h |}.

Definition set_spin (h : home) (sp : @spin N) : home :=
  {| h_camera := h_camera h; h_width := h_width h; h_height := h_height h;
     h_spin := sp; h_isDragging := h_isDragging h; h_prev_x := h_prev_x h;
     h_prev_y := h_prev_y h; h_touch_x := h_touch_x h; h_touch_y := h_touch_y h;
     h_planets := h_planets h; h_stars := h_stars h; h_stars_rot_y := h_stars_rot_y h;
     h_isLoading := h_isLoading h; h_listening := h_listening h;
     h_canvas_attached := h_canvas_attached h; h_disposed := h_disposed h;
     h_raf_pending := h_raf_pending h; h_renders_disposed := h_renders_disposed h;
     h_uncaught := h_uncaught h |}.

Definition set_view (h : home) (c : @camera N) (w ht : N) : home :=
  {| h_camera := c; h_width := w; h_height := ht;
     h_spin := h_spin h; h_isDragging := h_isDragging h; h_prev_x := h_prev_x h;
     h_prev_y := h_prev_y h; h_touch_x := h_touch_x h; h_touch_y := h_touch_y h;
     h_planets := h_planets h; h_stars := h_stars h; h_stars_rot_y := h_stars_rot_y h;
     h_isLoading := h_isLoading h; h_listening := h_listening h;
     h_canvas_attached := h_canvas_attached h; h_disposed := h_disposed h;
     h_raf_pending := h_raf_pending h; h_renders_disposed := h_renders_disposed h;
     h_uncaught := h_uncaught h |}.

(** The velocity a drag from [(px, py)] to [(x, y)] sets (lines 117-118
    and 152-153). *)
Definition drag_velocity (sp : @spin N) (px py x y : N) : @spin N :=
  {| rot_x := rot_x sp; rot_y := rot_y sp;
     vel_x := (y ⊖ py) ⊗ ⟪0.005⟫; vel_y := (x ⊖ px) ⊗ ⟪0.005⟫ |}.

(** [handleMouseDown], lines 103-109: no raycast. *)
Definition handleMouseDown (h : home) (x y : N) : home :=
  set_drag h true x y (h_touch_x h) (h_touch_y h).

(** [handleMouseMove], lines 111-124. *)
Definition handleMouseMove (h : home) (x y : N) : home :=
  if negb (h_isDragging h) then h
  else set_drag (set_spin h (drag_velocity (h_spin h) (h_prev_x h) (h_prev_y h) x y))
         true x y (h_touch_x h) (h_touch_y h).

(** [handleMouseUp] (lines 126-128) and [handleTouchEnd] (159-161). *)
Definition handleMouseUp (h : home) : home :=
  set_drag h false (h_prev_x h) (h_prev_y h) (h_touch_x h) (h_touch_y h).

(** [handleWheel], lines 130-134. *)
Definition handleWheel (h : home) (dy : N) : home :=
  let c := h_camera h in
  set_view h {| cam_z := clamp_zoom (cam_z c ⊕ dy ⊗ ⟪0.01⟫); cam_aspect := cam_aspect c |}
    (h_width h) (h_height h).

(** [handleTouchStart], lines 140-144: no raycast either. *)
Definition handleTouchStart (h : home) (x y : N) : home :=
  set_drag h true (h_prev_x h) (h_prev_y h) x y.

(** [handleTouchMove], lines 146-157: the displacement is taken from the
    touch's own start point, not from [previousMousePosition]. *)
Definition handleTouchMove (h : home) (x y : N) : home :=
  if negb (h_isDragging h) then h
  else set_drag (set_spin h (drag_velocity (h_spin h) (h_touch_x h) (h_touch_y h) x y))
         true (h_prev_x h) (h_prev_y h) x y.

(** [handleResize], lines 207-211. *)
Definition handleResize (h : home) (w ht : N) : home :=
  set_view h {| cam_z := cam_z (h_camera h); cam_aspect := w ⊘ ht |} w ht.

(** One planet of the [planets.forEach] of lines 191-196. *)
Definition hp_planet_step (p : hp_planet) : hp_planet :=
  let c := hp_cfg p in
  let a := hp_angle p ⊕ hp_speed c in
  {| hp_cfg := c; hp_angle := a;
     hp_pos_x := math_cos a ⊗ hp_distance c ⊗ ⟪0.5⟫;
     hp_pos_y := hp_pos_y p;
     hp_pos_z := num_neg (hp_distance c) ⊕ math_sin a ⊗ ⟪2⟫;
     hp_rot_y := hp_rot_y p ⊕ ⟪0.005⟫ |}.

(** [animate], lines 174-202: reschedule, rotate and damp (the same three
    statements as the vanilla frame, [spin_frame]), move the planets, turn
    the stars and render; a render after disposal is counted. *)
Definition home_animate (h : home) : home :=
  {| h_camera := h_camera h; h_width := h_width h; h_height := h_height h;
     h_spin := spin_frame (h_spin h) (h_isDragging h);
     h_isDragging := h_isDragging h; h_prev_x := h_prev_x h; h_prev_y := h_prev_y h;
     h_touch_x := h_touch_x h; h_touch_y := h_touch_y h;
     h_planets := map hp_planet_step (h_planets h); h_stars := h_stars h;
     h_stars_rot_y := h_stars_rot_y h ⊕ ⟪0.0001⟫;
     h_isLoading := h_isLoading h; h_listening := h_listening h;
     h_canvas_attached := h_canvas_attached h; h_disposed := h_disposed h;
     h_raf_pending := true;
     h_renders_disposed := if h_disposed h then S (h_renders_disposed h) else h_renders_disposed h;
     h_uncaught := h_uncaught h |}.

(** The cleanup returned by the effect, lines 216-238: remove the eight
    listeners, [removeChild] the canvas (which throws when it is no longer
    a child, skipping the rest) and dispose everything.  It does not cancel
    the scheduled animation frame. *)
Definition home_cleanup (h : home) : home :=
  {| h_camera := h_camera h; h_width := h_width h; h_height := h_height h;
     h_spin := h_spin h; h_isDragging := h_isDragging h; h_prev_x := h_prev_x h;
     h_prev_y := h_prev_y h; h_touch_x := h_touch_x h; h_touch_y := h_touch_y h;
     h_planets := h_planets h; h_stars := h_stars h; h_stars_rot_y := h_stars_rot_y h;
     h_isLoading := h_isLoading h; h_listening := false;
     h_canvas_attached := false;
     h_disposed := if h_canvas_attached h then true else h_disposed h;
     h_raf_pending := h_raf_pending h; h_renders_disposed := h_renders_disposed h;
     h_uncaught := if h_canvas_attached h then h_uncaught h else NotFoundError :: h_uncaught h |}.

(** The browser delivers input only to attached listeners; the frame
    callback runs when one is scheduled. *)
Definition home_step (h : home) (ev : home_event) : home :=
  let input f := if h_listening h then f h else h in
  match ev with
  | HMouseDown x y => input (fun h => handleMouseDown h x y)
  | HMouseMove x y => input (fun h => handleMouseMove h x y)
  | HMouseUp => input handleMouseUp
  | HWheel dy => input (fun h => handleWheel h dy)
  | HTouchStart x y => input (fun h => handleTouchStart h x y)
  | HTouchMove x y => input (fun h => handleTouchMove h x y)
  | HTouchEnd => input handleMouseUp
  | HResize w ht => input (fun h => handleResize h w ht)
  | HFrame => if h_raf_pending h then home_animate h else h
  | HCleanup => home_cleanup h
  end.

(** The coloured planets of lines 56-61. *)
Definition hp_configs : list hp_config := [
  {| hp_size := ⟪0.4⟫; hp_distance := ⟪8⟫; hp_speed := ⟪0.001⟫; hp_color := 16739179; hp_x := ⟪-3⟫; hp_y := ⟪2⟫ |};
  {| hp_size := ⟪0.6⟫; hp_distance := ⟪10⟫; hp_speed := ⟪0.0008⟫; hp_color := 16767293; hp_x := ⟪4⟫; hp_y := ⟪-2⟫ |};
  {| hp_size := ⟪0.3⟫; hp_distance := ⟪12⟫; hp_speed := ⟪0.0012⟫; hp_color := 7065471; hp_x := ⟪-5⟫; hp_y := ⟪-3⟫ |};
  {| hp_size := ⟪0.5⟫; hp_distance := ⟪9⟫; hp_speed := ⟪0.0009⟫; hp_color := 5084927; hp_x := ⟪3⟫; hp_y := ⟪3⟫ |}
]%Z.

Fixpoint hp_init (rand : nat -> N) (i : nat) (cfgs : list hp_config) : list hp_planet :=
  match cfgs with
  | [] => []
  | c :: cfgs =>
      {| hp_cfg := c; hp_angle := rand i ⊗ ⟪3.141592653589793⟫ ⊗ ⟪2⟫;
         hp_pos_x := hp_x c; hp_pos_y := hp_y c; hp_pos_z := num_neg (hp_distance c);
         hp_rot_y := ⟪0⟫ |} :: hp_init rand (S i) cfgs
  end.

(** The scene the effect body builds (lines 14-171) on a [w] by [ht]
    window, with [isLoading] cleared. *)
Definition home_init (w ht : N) (rand : nat -> N) : home :=
  {| h_camera := {| cam_z := ⟪5⟫; cam_aspect := w ⊘ ht |}; h_width := w; h_height := ht;
     h_spin := {| rot_x := ⟪0⟫; rot_y := ⟪0⟫; vel_x := ⟪0⟫; vel_y := ⟪0⟫ |};
     h_isDragging := false; h_prev_x := ⟪0⟫; h_prev_y := ⟪0⟫;
     h_touch_x := ⟪0⟫; h_touch_y := ⟪0⟫;
     h_planets := hp_init rand 0 hp_configs;
     h_stars := star_vertices rand 4 10000; h_stars_rot_y := ⟪0⟫;
     h_isLoading := false; h_listening := true; h_canvas_attached := true;
     h_disposed := false; h_raf_pending := true; h_renders_disposed := 0;
     h_uncaught := [] |}.

(** The effect body, lines 10-204: nothing when the mount element is
    missing; otherwise the scene, and the first frame run by the call
    [animate()] of line 204. *)
Definition home_mount (mounted : bool) (w ht : N) (rand : nat -> N) : option home :=
  if negb mounted then None else Some (home_animate (home_init w ht rand)).

(** The loading overlay of lines 245-257, rendered while [isLoading]. *)
Definition loading_overlay_shown (h : home) : bool := h_isLoading h.

End GlobeReact.

(** * The React globe against the vanilla one *)

Section Refinement.
Context {N : Type} `{JSNum N} `{MathTrig N}.

(** The motion of a planet, whichever page drew it. *)
Record kin := {
  k_angle : N; k_speed : N; k_distance : N;
  k_x : N; k_y : N; k_z : N; k_rot : N
}.

Definition planet_kin (p : @planet N) : kin :=
  {| k_angle := pl_angle p; k_speed := cfg_speed (pl_cfg p);
     k_distance := cfg_distance (pl_cfg p); k_x := pl_pos_x p; k_y := pl_pos_y p;
     k_z := pl_pos_z p; k_rot := pl_rot_y p |}.

Definition hp_kin (p : @hp_planet N) : kin :=
  {| k_angle := hp_angle p; k_speed := hp_speed (hp_cfg p);
     k_distance := hp_distance (hp_cfg p); k_x := hp_pos_x p; k_y := hp_pos_y p;
     k_z := hp_pos_z p; k_rot := hp_rot_y p |}.

Definition kin_step (k : kin) : kin :=
  let a := k_angle k ⊕ k_speed k in
  {| k_angle := a; k_speed := k_speed k; k_distance := k_distance k;
     k_x := math_cos a ⊗ k_distance k ⊗ ⟪0.5⟫; k_y := k_y k;
     k_z := num_neg (k_distance k) ⊕ math_sin a ⊗ ⟪2⟫;
     k_rot := k_rot k ⊕ ⟪0.005⟫ |}.

Lemma planet_kin_step ps : map planet_kin (map planet_step ps) = map kin_step (map planet_kin ps).
Proof. rewrite !map_map. reflexivity. Qed.

Lemma hp_kin_step ps : map hp_kin (map hp_planet_step ps) = map kin_step (map hp_kin ps).
Proof. rewrite !map_map. reflexivity. Qed.

(** The two controllers agree on what the user sees move, the vanilla
    [prev] being the React point [(px h, py h)]: [previousMousePosition]
    for mouse input, [touchStartX/Y] for touch input. *)
Definition corresponds_at (px py : @home N -> N) (s : @globe N) (h : @home N) : Prop :=
  cam_z (camera_of (g_view s)) = cam_z (h_camera h) /\
  g_spin s = h_spin h /\
  isDragging (g_gesture s) = h_isDragging h /\
  prev_x (g_gesture s) = px h /\
  prev_y (g_gesture s) = py h /\
  map planet_kin (planets (g_scene s)) = map hp_kin (h_planets h) /\
  stars_rot_y (g_scene s) = h_stars_rot_y h /\
  h_listening h = true /\
  h_raf_pending h = true.

Definition corresponds : @globe N -> @home N -> Prop := corresponds_at h_prev_x h_prev_y.

(** Mouse input and frames, the events both pages listen to. *)
Inductive mouse_input :=
| MDown (x y : N)
| MMove (x y : N)
| MUp
| MWheel (dy : N)
| MFrame.

Definition to_vanilla (m : mouse_input) : @globe_event N :=
  match m with
  | MDown x y => MouseDown x y
  | MMove x y => MouseMove x y
  | MUp => MouseUp
  | MWheel dy => Wheel dy
  | MFrame => AnimationFrame
  end.

Definition to_react (m : mouse_input) : @home_event N :=
  match m with
  | MDown x y => HMouseDown x y
  | MMove x y => HMouseMove x y
  | MUp => HMouseUp
  | MWheel dy => HWheel dy
  | MFrame => HFrame
  end.

Context `{EarthPicker N}.

(** The raycast says "on the Earth" wherever the pointer is. *)
Definition picks_everywhere : Prop := forall c rx ry px py, pick_earth c rx ry px py = true.

Lemma corresponds_step s h m :
  picks_everywhere -> corresponds s h ->
  corresponds (globe_step s (to_vanilla m)) (home_step h (to_react m)).
Proof.
  unfold corresponds. intros Hp (Hz & Hs & Hd & Hx & Hy & Hpl & Hst & Hl & Hr).
  destruct m as [x y|x y| |dy|]; cbn [to_vanilla to_react globe_step home_step];
    rewrite ?Hl, ?Hr; cbn beta iota;
    [ unfold onDown, checkPointerOverEarth; rewrite Hp
    | unfold onMove, handleMouseMove; cbn; rewrite <- Hd;
      destruct (isDragging (g_gesture s)) eqn:E
    | | | ];
    unfold corresponds_at; cbn;
    rewrite ?planet_kin_step, ?hp_kin_step, ?Hpl, ?Hz, ?Hs, ?Hd, ?Hx, ?Hy, ?Hst;
    repeat split; auto; congruence.
Qed.

(** C8: refinement.  When the raycast places every point on the Earth,
    the React controller of [homepage.js] and the vanilla controller of
    [main.js], started in corresponding states, stay in corresponding
    states on every sequence of mouse presses, moves, releases, wheel
    turns and frames: for mouse input the React handlers are the vanilla
    handlers without the raycast gate. *)
Theorem react_refines_vanilla s h evs :
  picks_everywhere -> corresponds s h ->
  corresponds (run globe_step s (map to_vanilla evs)) (run home_step h (map to_react evs)).
Proof.
  intros Hp. revert s h. induction evs as [|m evs IH]; intros s h Hc; [exact Hc|].
  cbn [map]. rewrite !run_cons. apply IH. now apply corresponds_step.
Qed.

(** The two pages mount in corresponding states from the same random
    draws, whatever their canvas sizes. *)
Lemma mount_corresponds w ht l t gal w' ht' rand :
  corresponds (animate (globe_init w ht l t gal rand)) (home_animate (home_init w' ht' rand)).
Proof. unfold corresponds, corresponds_at. repeat split; reflexivity. Qed.

(** Touch input and frames. *)
Inductive touch_input :=
| TStart (x y : N)
| TMove (x y : N)
| TEnd
| TWheel (dy : N)
| TFrame.

Definition touch_to_vanilla (m : touch_input) : @globe_event N :=
  match m with
  | TStart x y => TouchStart x y
  | TMove x y => TouchMove x y
  | TEnd => TouchEnd
  | TWheel dy => Wheel dy
  | TFrame => AnimationFrame
  end.

Definition touch_to_react (m : touch_input) : @home_event N :=
  match m with
  | TStart x y => HTouchStart x y
  | TMove x y => HTouchMove x y
  | TEnd => HTouchEnd
  | TWheel dy => HWheel dy
  | TFrame => HFrame
  end.

Lemma corresponds_touch_step s h m :
  picks_everywhere -> corresponds_at h_touch_x h_touch_y s h ->
  corresponds_at h_touch_x h_touch_y (globe_step s (touch_to_vanilla m)) (home_step h (touch_to_react m)).
Proof.
  intros Hp (Hz & Hs & Hd & Hx & Hy & Hpl & Hst & Hl & Hr).
  destruct m as [x y|x y| |dy|]; cbn [touch_to_vanilla touch_to_react globe_step home_step];
    rewrite ?Hl, ?Hr; cbn beta iota;
    [ unfold onTouchStart, checkPointerOverEarth; rewrite Hp
    | unfold onTouchMove, handleTouchMove; rewrite <- Hd;
      destruct (isDragging (g_gesture s)) eqn:E
    | | | ];
    unfold corresponds_at; cbn;
    rewrite ?planet_kin_step, ?hp_kin_step, ?Hpl, ?Hz, ?Hs, ?Hd, ?Hx, ?Hy, ?Hst;
    repeat split; auto; congruence.
Qed.

(** C33: refinement for touch.  When the raycast places every point on
    the Earth, the React controller simulates the vanilla one on every
    sequence of touch starts, moves and ends, wheel turns and frames, the
    vanilla [prev] being the React [touchStartX/Y]. *)
Theorem react_refines_vanilla_touch s h evs :
  picks_everywhere -> corresponds_at h_touch_x h_touch_y s h ->
  corresponds_at h_touch_x h_touch_y
    (run globe_step s (map touch_to_vanilla evs)) (run home_step h (map touch_to_react evs)).
Proof.
  intros Hp. revert s h. induction evs as [|m evs IH]; intros s h Hc; [exact Hc|].
  cbn [map]. rewrite !run_cons. apply IH. now apply corresponds_touch_step.
Qed.

Lemma mount_corresponds_touch w ht l t gal w' ht' rand :
  corresponds_at h_touch_x h_touch_y
    (animate (globe_init w ht l t gal rand)) (home_animate (home_init w' ht' rand)).
Proof. unfold corresponds_at. repeat split; reflexivity. Qed.

(** C34: the two React drag sources do not mix.  After a touch starts at
    [(x0, y0)], a mouse move to [(x1, y1)] sets the vanilla velocity from
    the touch point, as one [prev] serves both, while the React handler
    measures from [previousMousePosition], the last mouse point. *)
Theorem touch_then_mouse_diverge s h x0 y0 x1 y1 :
  picks_everywhere -> h_listening h = true ->
  let s' := run globe_step s [TouchStart x0 y0; MouseMove x1 y1] in
  let h' := run home_step h [HTouchStart x0 y0; HMouseMove x1 y1] in
  vel_x (g_spin s') = (y1 ⊖ y0) ⊗ ⟪0.005⟫ /\ vel_y (g_spin s') = (x1 ⊖ x0) ⊗ ⟪0.005⟫ /\
  vel_x (h_spin h') = (y1 ⊖ h_prev_y h) ⊗ ⟪0.005⟫ /\ vel_y (h_spin h') = (x1 ⊖ h_prev_x h) ⊗ ⟪0.005⟫.
Proof.
  intros Hp Hl. cbv zeta. cbn [run fold_left globe_step home_step].
  unfold onTouchStart, checkPointerOverEarth. rewrite Hp. cbn. repeat (rewrite Hl; cbn).
  repeat split; reflexivity.
Qed.

End Refinement.

Section Lifecycle.
Context {N : Type} `{JSNum N} `{MathTrig N}.

(** Scheduled frames keep running: each one reschedules the next. *)
Lemma frames_run (h0 : @home N) n :
  h_raf_pending h0 = true ->
  let h' := run home_step h0 (repeat HFrame n) in
  h_raf_pending h' = true /\ h_listening h' = h_listening h0 /\
  h_disposed h' = h_disposed h0 /\
  h_spin h' = Nat.iter n (fun sp => spin_frame sp (h_isDragging h0)) (h_spin h0) /\
  h_renders_disposed h' =
    (if h_disposed h0 then n + h_renders_disposed h0 else h_renders_disposed h0)%nat.
Proof.
  revert h0; induction n as [|n IH]; intros h0 Hr; cbv zeta.
  - cbn. destruct (h_disposed h0); auto.
  - cbn [repeat]. rewrite run_cons. cbn [home_step]. rewrite Hr.
    destruct (IH (home_animate h0) eq_refl) as (R & L & D & Sp & Rd). cbv zeta in *.
    rewrite R, L, D, Sp, Rd, Nat.iter_succ_r. cbn -[Nat.iter].
    destruct (h_disposed h0); repeat split; lia.
Qed.

(** C9: the cleanup does not stop the animation loop.  After React runs
    the cleanup of a mounted scene (listeners removed, canvas detached,
    everything disposed), the [requestAnimationFrame] chain goes on: [n]
    frames later a frame is still scheduled, the Earth's rotation has been
    advanced [n] times and [n] frames were rendered with the disposed
    renderer. *)
Theorem animation_survives_cleanup (h : @home N) n :
  h_raf_pending h = true -> h_canvas_attached h = true ->
  let h' := run home_step (home_cleanup h) (repeat HFrame n) in
  h_disposed h' = true /\ h_listening h' = false /\ h_raf_pending h' = true /\
  h_spin h' = Nat.iter n (fun sp => spin_frame sp (h_isDragging h)) (h_spin h) /\
  h_renders_disposed h' = (n + h_renders_disposed h)%nat.
Proof.
  intros Hr Ha.
  destruct (frames_run (home_cleanup h) n Hr) as (R & L & D & Sp & Rd).
  cbv zeta in *. rewrite R, L, D, Sp, Rd. cbn. rewrite Ha. auto.
Qed.

(** C10: after the cleanup no listener runs: every input event (pointer,
    wheel, touch, resize) leaves the torn-down controller unchanged. *)
Theorem input_after_cleanup_ignored (h : @home N) ev :
  ev <> HFrame -> ev <> HCleanup ->
  home_step (home_cleanup h) ev = home_cleanup h.
Proof. intros Hf Hc. destruct ev; cbn; congruence. Qed.

(** C11: the cleanup is not idempotent: run a second time it calls
    [removeChild] on a canvas that is no longer a child, which throws
    [NotFoundError] out of the cleanup. *)
Theorem cleanup_twice_throws (h : @home N) :
  h_canvas_attached h = true ->
  h_disposed (home_cleanup h) = true /\
  h_uncaught (home_cleanup h) = h_uncaught h /\
  h_uncaught (home_cleanup (home_cleanup h)) = NotFoundError :: h_uncaught h.
Proof. intros Ha. cbn. rewrite Ha. auto. Qed.

Lemma home_event_frame_cleanup (ev : @home_event N) :
  ev = HFrame \/ ev = HCleanup \/ (ev <> HFrame /\ ev <> HCleanup).
Proof. destruct ev; auto; right; right; split; discriminate. Qed.

(** The lifecycle fields of the effect: what the listeners never touch. *)
Definition life (h : @home N) :=
  (h_raf_pending h, h_listening h, h_canvas_attached h, h_disposed h,
   h_renders_disposed h, h_uncaught h).

Lemma life_input (h : @home N) ev :
  ev <> HFrame -> ev <> HCleanup -> life (home_step h ev) = life h.
Proof.
  intros Hf Hc. destruct ev; try congruence; cbn [home_step];
    destruct (h_listening h); try reflexivity;
    unfold handleMouseMove, handleTouchMove; try destruct (negb (h_isDragging h)); reflexivity.
Qed.

(** The lifecycle as the effect and its cleanup leave it: the frame chain
    is always scheduled, listeners are attached exactly while the canvas
    is, the scene is disposed exactly once the canvas is gone, and renders
    with the disposed renderer and uncaught exceptions happen only then. *)
Definition lifecycle_ok (h : @home N) : Prop :=
  h_raf_pending h = true /\ h_listening h = h_canvas_attached h /\
  h_disposed h = negb (h_canvas_attached h) /\
  (h_renders_disposed h <> O -> h_disposed h = true) /\
  (h_uncaught h <> [] -> h_disposed h = true).

Lemma lifecycle_ok_life h h' : life h' = life h -> lifecycle_ok h -> lifecycle_ok h'.
Proof. unfold life, lifecycle_ok. intros E. injection E as -> -> -> -> -> ->. exact (fun H => H). Qed.

Lemma lifecycle_ok_step (h : @home N) ev : lifecycle_ok h -> lifecycle_ok (home_step h ev).
Proof.
  intros Hl. destruct (home_event_frame_cleanup ev) as [->|[->|[Hf Hc]]].
  - destruct Hl as (Hr & Ha & Hd & Hrd & Hu). cbn [home_step]. rewrite Hr.
    unfold lifecycle_ok; cbn. repeat split; auto.
    destruct (h_disposed h) eqn:D; [auto | intros Hn; apply Hrd; exact Hn].
  - destruct Hl as (Hr & Ha & Hd & Hrd & Hu). unfold lifecycle_ok; cbn.
    destruct (h_canvas_attached h); cbn in *; repeat split; auto.
  - apply (lifecycle_ok_life h); [apply life_input; assumption | exact Hl].
Qed.

(** C36: the effect's lifecycle is consistent in every state reached from
    the mount: the animation frame chain is always scheduled (nothing
    cancels it), the listeners are attached exactly while the canvas is in
    the page, the scene is disposed exactly when the canvas has been
    removed, and renders with the disposed renderer or exceptions escaping
    the cleanup happen only after disposal. *)
Theorem reachable_lifecycle_ok mounted w ht rand (h0 h : @home N) :
  home_mount mounted w ht rand = Some h0 -> reachable home_step h0 h -> lifecycle_ok h.
Proof.
  intros Hm R. pattern h. refine (reachable_invariant home_step _ _ _ _ h R); [|apply lifecycle_ok_step].
  destruct mounted; [|discriminate]. injection Hm as <-.
  unfold lifecycle_ok; cbn. repeat split; congruence.
Qed.

End Lifecycle.

(** ** Witnesses, at rationals *)

Local Open Scope Q_scope.

(** The raycast of a pointer that is on the Earth wherever it is. *)
Definition pick_all : EarthPicker Q := fun _ _ _ _ _ => true.
#[local] Existing Instance pick_all.

Definition demo_home : @home Q := home_animate (home_init 800 600 (fun _ => 1 # 2)).

Definition demo_vanilla : @globe Q := animate (globe_init 800 600 0 0 None (fun _ => 1 # 2)).

Definition a_drag : list (@mouse_input Q) := [MDown 400 300; MMove 500 300; MUp; MWheel 120; MFrame].

Lemma react_refines_vanilla_witness :
  corresponds (run globe_step demo_vanilla (map to_vanilla a_drag))
              (run home_step demo_home (map to_react a_drag)).
Proof.
  apply (@react_refines_vanilla Q _ _ pick_all).
  - intros c rx ry px py. reflexivity.
  - apply mount_corresponds.
Defined.

Definition a_swipe : list (@touch_input Q) := [TStart 400 300; TMove 380 310; TEnd; TFrame].

Lemma react_refines_vanilla_touch_witness :
  corresponds_at h_touch_x h_touch_y (run globe_step demo_vanilla (map touch_to_vanilla a_swipe))
              (run home_step demo_home (map touch_to_react a_swipe)).
Proof.
  apply (@react_refines_vanilla_touch Q _ _ pick_all).
  - intros c rx ry px py. reflexivity.
  - apply mount_corresponds_touch.
Defined.

(** A touch at the centre, then a mouse move 10 pixels to its right: the
    vanilla Earth gets a small yaw velocity, the React one a jump measured
    from [previousMousePosition = (0, 0)]. *)
Lemma touch_then_mouse_diverge_witness :
  vel_y (g_spin (run globe_step demo_vanilla [TouchStart 400 300; MouseMove 410 300])) == 0.05 /\
  vel_y (h_spin (run home_step demo_home [HTouchStart 400 300; HMouseMove 410 300])) == 2.05.
Proof.
  destruct (@touch_then_mouse_diverge Q _ _ pick_all demo_vanilla demo_home 400 300 410 300)
    as (_ & Ev & _ & Eh); [intros c rx ry px py; reflexivity | reflexivity |].
  rewrite Ev, Eh. split; reflexivity.
Defined.

Lemma animation_survives_cleanup_witness :
  h_raf_pending (run home_step (home_cleanup demo_home) (repeat HFrame 5)) = true /\
  h_renders_disposed (run home_step (home_cleanup demo_home) (repeat HFrame 5)) = 5%nat.
Proof.
  destruct (animation_survives_cleanup demo_home 5) as (_ & _ & Hr & _ & Hn);
    [reflexivity | reflexivity |].
  split; [exact Hr | exact Hn].
Defined.

Lemma input_after_cleanup_ignored_witness :
  home_step (home_cleanup demo_home) (HMouseDown 400 300) = home_cleanup demo_home.
Proof. apply input_after_cleanup_ignored; discriminate. Defined.

Lemma cleanup_twice_throws_witness :
  h_uncaught (home_cleanup (home_cleanup demo_home)) = [NotFoundError].
Proof. destruct (cleanup_twice_throws demo_home) as (_ & _ & E); [reflexivity | exact E]. Defined.

Lemma reachable_lifecycle_ok_witness :
  lifecycle_ok (run home_step demo_home [HMouseDown 400 300; HCleanup; HFrame; HCleanup; HFrame]).
Proof.
  apply (reachable_lifecycle_ok true 800 600 (fun _ => 1 # 2) demo_home); [reflexivity|].
  apply reachable_run. eexists. reflexivity.
Defined.
