(* ===== verification/GlobeInvariant.v ===== *)
(** * GlobeInvariant: the well-formedness of the vanilla globe's state

    The listeners of [src/main.js] (lines 238-314) keep the controller's
    state in a shape that its code relies on without checking:
    - the cursor classes agree with the drag flag: [cursor-grab] is shown
      only when no drag is under way, [cursor-grabbing] only during one
      (so never both);
    - the planets are the four of [planetConfigs], in order;
    - the outstanding texture loads are distinct, a remote load of a layer
      is never outstanding together with its local load, and every planet
      load names one of the four planets.

    [globe_wf] states them; each listener preserves it, and so does every
    run of the mounted controller, whatever the number type and the
    raycast. *)

From Stdlib Require Import QArith Lqa List Bool String Arith Lia.
From S2P Require Import Prelude JsNum GallerySwipe Globe.
Import ListNotations.
Local Open Scope nat_scope.
Local Open Scope cupola_scope.

Section Invariant.
Context {N : Type} `{JSNum N} `{MathTrig N} `{EarthPicker N}.

(** The cursor classes agree with [isDragging]. *)
Definition cursor_ok (g : @gesture N) : Prop :=
  (cursor_grab g = true -> isDragging g = false) /\
  (cursor_grabbing g = true -> isDragging g = true).

(** The texture loads in flight. *)
Definition pending_ok (l : list tex_request) : Prop :=
  NoDup l /\
  (forall k, In (EarthTex k Remote) l -> ~ In (EarthTex k Local) l) /\
  (forall i, In (PlanetTex i) l -> (i < List.length planetConfigs)%nat).

(** The planets and the loads in flight. *)
Definition scene_wf (sc : @scene N) : Prop :=
  map pl_cfg (planets sc) = planetConfigs /\ pending_ok (pending sc).

Definition globe_wf (s : @globe N) : Prop := cursor_ok (g_gesture s) /\ scene_wf (g_scene s).

(** ** The gesture *)

Lemma cursor_ok_hover (g : @gesture N) over : cursor_ok g -> cursor_ok (hover_cursor g over).
Proof.
  unfold cursor_ok, hover_cursor. cbn. intros [Hg Hgg].
  destruct over, (isDragging g); cbn; auto.
Qed.

(** Every listener leaves the cursor classes in agreement with the drag
    flag. *)
Lemma cursor_ok_step (s : @globe N) ev :
  cursor_ok (g_gesture s) -> cursor_ok (g_gesture (globe_step s ev)).
Proof.
  intros Hc. destruct ev as [x y|x y| | | |pt x y|dy|x y|x y| |w h| |r ok]; cbn [globe_step].
  - unfold onDown. destruct (checkPointerOverEarth s x y); cbn; [|exact Hc].
    split; cbn; auto; discriminate.
  - unfold onMove. pose proof (cursor_ok_hover _ (checkPointerOverEarth s x y) Hc) as Hh.
    destruct (isDragging (hover_cursor (g_gesture s) (checkPointerOverEarth s x y))); cbn; exact Hh.
  - split; cbn; discriminate.
  - exact Hc.
  - split; cbn; discriminate.
  - destruct pt; cbn; [apply cursor_ok_hover | |]; exact Hc.
  - exact Hc.
  - unfold onTouchStart. destruct (checkPointerOverEarth s x y); cbn; [|exact Hc].
    split; cbn; auto; discriminate.
  - unfold onTouchMove. destruct (isDragging (g_gesture s)); cbn; exact Hc.
  - split; cbn; discriminate.
  - exact Hc.
  - exact Hc.
  - unfold onTextureLoaded. destruct (is_pending r (pending (g_scene s))); [|exact Hc].
    destruct r as [k [|]|i]; destruct ok; exact Hc.
Qed.

(** ** The scene *)

Lemma map_cfg_planet_step (ps : list (@planet N)) : map pl_cfg (map planet_step ps) = map pl_cfg ps.
Proof. rewrite map_map. reflexivity. Qed.

Lemma map_cfg_set_map i (ps : list (@planet N)) : map pl_cfg (update_nth i set_planet_map ps) = map pl_cfg ps.
Proof. apply map_update_nth_id. reflexivity. Qed.

(** Dropping loads keeps the list well formed. *)
Lemma pending_ok_incl l l' : pending_ok l -> NoDup l' -> incl l' l -> pending_ok l'.
Proof.
  intros (_ & Hrl & Hpl) Hnd Hi. split; [exact Hnd|]. split.
  - intros k Hr Hl. exact (Hrl k (Hi _ Hr) (Hi _ Hl)).
  - intros j Hj. exact (Hpl j (Hi _ Hj)).
Qed.

Lemma pending_ok_remove l r : pending_ok l -> pending_ok (remove tex_request_eq_dec r l).
Proof.
  intros Hok. apply (pending_ok_incl l); [exact Hok | apply NoDup_remove_all, Hok |].
  intros x Hx. apply in_remove in Hx. apply Hx.
Qed.

(** A failed local load of layer [k] is replaced by the remote load. *)
Lemma pending_ok_retry l k :
  pending_ok l -> In (EarthTex k Local) l ->
  pending_ok (remove tex_request_eq_dec (EarthTex k Local) l ++ [EarthTex k Remote]).
Proof.
  intros Hok Hin. pose proof (pending_ok_remove l (EarthTex k Local) Hok) as (Hnd & Hrl & Hpl).
  destruct Hok as (_ & Hrl0 & _).
  assert (Hnr : ~ In (EarthTex k Remote) (remove tex_request_eq_dec (EarthTex k Local) l)).
  { intros Hr. apply in_remove in Hr. exact (Hrl0 k (proj1 Hr) Hin). }
  split; [apply NoDup_snoc; assumption|]. split.
  - intros k' Hr Hl. apply in_app_iff in Hr, Hl.
    destruct Hl as [Hl|[Hl|[]]]; [|discriminate].
    destruct Hr as [Hr|[Hr|[]]]; [exact (Hrl k' Hr Hl)|].
    injection Hr as <-. apply in_remove in Hl. apply (proj2 Hl). reflexivity.
  - intros j Hj. apply in_app_iff in Hj. destruct Hj as [Hj|[Hj|[]]]; [exact (Hpl j Hj) | discriminate].
Qed.

(** Completing a load removes it; a failed local load of a layer adds its
    remote load, which cannot be outstanding already. *)
Lemma scene_wf_loaded (s : @globe N) r ok :
  scene_wf (g_scene s) -> scene_wf (g_scene (onTextureLoaded s r ok)).
Proof.
  intros (Hc & Hok). unfold onTextureLoaded.
  destruct (is_pending r (pending (g_scene s))) eqn:Hp; [|split; assumption].
  assert (Hin : In r (pending (g_scene s)))
    by (unfold is_pending in Hp; destruct (in_dec _ _ _); [assumption | discriminate]).
  destruct r as [k [|]|i]; destruct ok; cbn [negb with_scene g_scene planets pending]; split;
    first [ exact Hc | cbn [planets]; rewrite map_cfg_set_map; exact Hc
          | apply pending_ok_retry; assumption | apply pending_ok_remove; assumption ].
Qed.

Lemma scene_wf_step (s : @globe N) ev : scene_wf (g_scene s) -> scene_wf (g_scene (globe_step s ev)).
Proof.
  intros Hw. rewrite scene_step. destruct ev; try exact Hw; [|apply scene_wf_loaded, Hw].
  destruct Hw as [Hc Hok]. split; [cbn; rewrite map_cfg_planet_step; exact Hc | exact Hok].
Qed.

Lemma globe_wf_step (s : @globe N) ev : globe_wf s -> globe_wf (globe_step s ev).
Proof. intros [Hc Hs]. split; [apply cursor_ok_step, Hc | apply scene_wf_step, Hs]. Qed.

(** The mounted controller is well formed. *)
Lemma globe_wf_init w h l t gal rand : globe_wf (animate (globe_init w h l t gal rand)).
Proof.
  split; [split; cbn; discriminate|]. split.
  - cbn [animate with_scene with_spin g_scene planets globe_init].
    rewrite map_cfg_planet_step. reflexivity.
  - cbn [animate with_scene with_spin g_scene pending globe_init]. split; [|split].
    + repeat constructor; cbn; intuition discriminate.
    + intros k Hr. cbn in Hr. repeat (destruct Hr as [Hr|Hr]; [discriminate|]). contradiction.
    + intros i Hi. destruct Hi as [E|[E|[E|[E|[E|[E|[E|[]]]]]]]]; try discriminate;
        injection E as <-; cbn; lia.
Qed.

(** C30: every state the vanilla controller reaches from its mount is well
    formed: the cursor shows [cursor-grab] only outside a drag and
    [cursor-grabbing] only during one, the planets are the four configured
    ones, and the texture loads in flight are distinct, never hold a
    layer's local and remote loads together, and only name existing
    planets. *)
Theorem reachable_globe_wf root three l t gal rand (s0 s : @globe N) :
  globe_mount root three l t gal rand = Some s0 ->
  reachable globe_step s0 s -> globe_wf s.
Proof.
  intros Hm R. pattern s. refine (reachable_invariant globe_step _ _ _ _ s R); [|apply globe_wf_step].
  destruct root as [[w h]|]; [|discriminate]. destruct three; [|discriminate].
  injection Hm as <-. apply globe_wf_init.
Qed.

End Invariant.

Local Open Scope Q_scope.

(** ** Witness: a press on the Earth, the pointer leaving the canvas and a
    failed local load of the colour map *)

Lemma reachable_globe_wf_witness :
  globe_wf (run globe_step demo_globe
    [MouseDown 400 300; PointerLeave; TextureLoaded (EarthTex TexMap Local) false]).
Proof.
  apply (reachable_globe_wf (Some (800, 600)) true 0 0 None (fun _ => 1 # 2) demo_globe); [reflexivity|].
  apply reachable_run. eexists. reflexivity.
Defined.
