(* ===== verification/Mascot.v ===== *)
(** * Mascot: the auto-minimizing mascot of [src/main.js] (lines 11-49)

    On [DOMContentLoaded] the script finds [.mascot] and its speech bubble
    and starts a 3-second timer that minimizes the mascot once
    ([autoMinimizedOnce]).  A click on the mascot toggles it; a
    [pointerdown], [keydown], [scroll] or [touchstart] anywhere on the page
    reopens a minimized mascot as long as the automatic minimize has not
    happened yet.  [mascot] holds the [minimized] class, the flag, the
    pending timer (its deadline, in milliseconds) and the clock; time passes
    by [Elapse] events, during which a pending timer fires at its deadline.

    A click on the mascot with a mouse or a finger is the sequence
    [Interact PointerDown; Click tag]: the [pointerdown] event reaches the
    window listener before the [click] event is dispatched. *)

From Stdlib Require Import Arith Lia List Bool String Ascii.
From S2P Require Import Prelude.
Import ListNotations.

Record mascot := {
  minimized : bool;               (** [mascot.classList.contains('minimized')] *)
  autoMinimizedOnce : bool;
  timer : option nat;             (** the deadline of [minimizeTimer], if pending *)
  clock : nat                     (** milliseconds since the handler ran *)
}.

(** The four window events of line 46. *)
Inductive interaction := PointerDown | KeyDown | Scroll | TouchStart.

Inductive mascot_event :=
| Click (tagName : string)        (** a click whose target has this tag name *)
| Interact (k : interaction)      (** one of the window listeners of line 47 *)
| Elapse (ms : nat).              (** time passes *)

Definition lower_ascii (c : ascii) : ascii :=
  let n := nat_of_ascii c in
  if (65 <=? n) && (n <=? 90) then ascii_of_nat (n + 32) else c.

(** [String.prototype.toLowerCase] on the ASCII letters of a tag name. *)
Fixpoint to_lower (s : string) : string :=
  match s with
  | EmptyString => EmptyString
  | String c s => String (lower_ascii c) (to_lower s)
  end.

(** [startTimer], lines 20-23: clear the pending timer, set a new one. *)
Definition startTimer (m : mascot) : mascot :=
  {| minimized := minimized m; autoMinimizedOnce := autoMinimizedOnce m;
     timer := Some (clock m + 3000); clock := clock m |}.

Definition clearTimer (m : mascot) : mascot :=
  {| minimized := minimized m; autoMinimizedOnce := autoMinimizedOnce m;
     timer := None; clock := clock m |}.

Definition set_minimized (m : mascot) (b : bool) : mascot :=
  {| minimized := b; autoMinimizedOnce := autoMinimizedOnce m;
     timer := timer m; clock := clock m |}.

(** [open], line 25. *)
Definition mascot_open (m : mascot) : mascot :=
  let m := set_minimized m false in
  if negb (autoMinimizedOnce m) then startTimer m else m.

(** [toggle], lines 26-33. *)
Definition toggle (m : mascot) : mascot :=
  let m := set_minimized m (negb (minimized m)) in
  if negb (minimized m) then (if negb (autoMinimizedOnce m) then startTimer m else m)
  else clearTimer m.

(** Lines 40-41: the click's target is an interactive element. *)
Definition interactive_tag (tagName : string) : bool :=
  let tag := to_lower tagName in
  existsb (String.eqb tag) ["a"; "button"; "input"; "textarea"]%string.

(** The click listener, lines 39-43. *)
Definition onMascotClick (m : mascot) (tagName : string) : mascot :=
  if interactive_tag tagName then m else toggle m.

(** The window listeners, line 47. *)
Definition onInteract (m : mascot) : mascot :=
  if negb (autoMinimizedOnce m) && minimized m then mascot_open m else m.

(** The timer callback of line 22, run at its deadline. *)
Definition fire (m : mascot) : mascot :=
  {| minimized := true; autoMinimizedOnce := true; timer := None; clock := clock m |}.

(** [ms] milliseconds pass: the pending timer fires if its deadline falls
    within them. *)
Definition elapse (m : mascot) (ms : nat) : mascot :=
  let m' := match timer m with
            | Some d => if d <=? clock m + ms then fire m else m
            | None => m
            end in
  {| minimized := minimized m'; autoMinimizedOnce := autoMinimizedOnce m';
     timer := timer m'; clock := clock m + ms |}.

Definition mascot_step (m : mascot) (ev : mascot_event) : mascot :=
  match ev with
  | Click t => onMascotClick m t
  | Interact _ => onInteract m
  | Elapse ms => elapse m ms
  end.

(** The [DOMContentLoaded] handler, lines 12-36: nothing without the
    mascot or its bubble; otherwise the timer starts at once.  [min0] is
    whether the markup ships the mascot minimized. *)
Definition mascot_init (present : bool) (min0 : bool) : option mascot :=
  if negb present then None
  else Some (startTimer {| minimized := min0; autoMinimizedOnce := false;
                           timer := None; clock := 0 |}).

(** ** Properties *)

(** C13: a click cannot reopen a mascot the user minimized before the
    automatic minimize: the click's [pointerdown] reaches the window
    listener first, which reopens the mascot and restarts the timer, and
    the [click] then toggles it straight back and clears the timer. *)
Theorem click_cannot_reopen m t :
  autoMinimizedOnce m = false -> minimized m = true -> interactive_tag t = false ->
  run mascot_step m [Interact PointerDown; Click t] = clearTimer m.
Proof.
  intros Ha Hm Ht. cbn -[interactive_tag].
  unfold onInteract, mascot_open, onMascotClick, toggle. rewrite Ha, Hm, Ht.
  destruct m; cbn in *; subst; reflexivity.
Qed.

(** The invariant of the timer: once the automatic minimize has happened
    no timer is ever pending again. *)
Definition timer_ok (m : mascot) : Prop := autoMinimizedOnce m = true -> timer m = None.

Lemma timer_ok_step m ev : timer_ok m -> timer_ok (mascot_step m ev).
Proof.
  unfold timer_ok. intros Hok. destruct ev as [t|k|ms]; cbn.
  - unfold onMascotClick, toggle. destruct (interactive_tag t); [exact Hok|].
    destruct (minimized m), (autoMinimizedOnce m) eqn:A; cbn; rewrite ?A; cbn; intros H;
      try reflexivity; try discriminate; try congruence; auto.
  - unfold onInteract, mascot_open.
    destruct (autoMinimizedOnce m) eqn:A, (minimized m); cbn; rewrite ?A; cbn; intros H;
      try reflexivity; try congruence; auto.
  - unfold elapse. destruct (timer m) as [d|] eqn:T; [destruct (d <=? clock m + ms)|];
      cbn; intros H; try reflexivity; specialize (Hok H); congruence.
Qed.

Lemma once_monotone m ev :
  autoMinimizedOnce m = true -> autoMinimizedOnce (mascot_step m ev) = true.
Proof.
  intros A. destruct ev as [t|k|ms]; cbn.
  - unfold onMascotClick, toggle. destruct (interactive_tag t); [exact A|].
    destruct (minimized m); cbn; rewrite ?A; cbn; auto.
  - unfold onInteract. rewrite A. exact A.
  - unfold elapse. destruct (timer m) as [d|]; [destruct (d <=? clock m + ms)|]; cbn; auto.
Qed.

(** C14: in every state reached from the mounted mascot, a pending timer
    means the automatic minimize has not happened: after it, no event
    starts a timer again, and the flag never goes back. *)
Theorem auto_minimize_at_most_once present min0 m0 m :
  mascot_init present min0 = Some m0 -> reachable mascot_step m0 m ->
  timer_ok m /\ (forall evs, autoMinimizedOnce m = true ->
                 autoMinimizedOnce (run mascot_step m evs) = true).
Proof.
  intros Hi R. split.
  - pattern m. refine (reachable_invariant mascot_step _ _ _ _ m R); [|apply timer_ok_step].
    destruct present; [|discriminate]. injection Hi as <-. unfold timer_ok. cbn. discriminate.
  - intros evs A. apply (run_invariant mascot_step (fun s => autoMinimizedOnce s = true));
      [intros s ev; apply once_monotone | exact A].
Qed.

(** C15: left alone, the mounted mascot minimizes itself once its timer is
    due: any wait that reaches the deadline minimizes it and records the
    automatic minimize. *)
Theorem timer_minimizes m d ms :
  timer m = Some d -> d <= clock m + ms ->
  minimized (mascot_step m (Elapse ms)) = true /\
  autoMinimizedOnce (mascot_step m (Elapse ms)) = true /\
  timer (mascot_step m (Elapse ms)) = None.
Proof.
  intros Ht Hd. cbn. unfold elapse. rewrite Ht.
  replace (d <=? clock m + ms) with true by (symmetry; apply Nat.leb_le; lia). cbn. auto.
Qed.

(** C16: after the automatic minimize the mascot is a plain toggle: page
    interactions change nothing, a click on an interactive child changes
    nothing, and any other click flips [minimized] without starting a
    timer. *)
Theorem after_auto_minimize_toggle m t k :
  autoMinimizedOnce m = true -> timer m = None ->
  mascot_step m (Interact k) = m /\
  mascot_step m (Click t) =
    (if interactive_tag t then m else set_minimized m (negb (minimized m))).
Proof.
  intros A T. cbn -[interactive_tag]. unfold onInteract, onMascotClick, toggle.
  rewrite A. split; [reflexivity|].
  destruct (interactive_tag t); [reflexivity|].
  destruct m as [mi au ti cl]; cbn in *; subst. destruct mi; reflexivity.
Qed.

(** A pending timer is due at most 3000 ms from now: [startTimer] always
    sets a deadline 3000 ms ahead, and time passing only brings it
    closer. *)
Definition timer_bound (m : mascot) : Prop := forall d, timer m = Some d -> d <= clock m + 3000.

Lemma timer_bound_start m : timer_bound (startTimer m).
Proof. intros d Hd. cbn in Hd. injection Hd as <-. cbn. lia. Qed.

Lemma timer_bound_step m ev : timer_bound m -> timer_bound (mascot_step m ev).
Proof.
  intros Hb. destruct ev as [t|k|ms]; cbn.
  - unfold onMascotClick, toggle. destruct (interactive_tag t); [exact Hb|].
    intros d Hd. unfold set_minimized, startTimer, clearTimer in *. cbn in Hd |- *.
    destruct (minimized m), (autoMinimizedOnce m); cbn in Hd |- *;
      first [discriminate | injection Hd as <-; lia | exact (Hb d Hd)].
  - unfold onInteract, mascot_open. destruct (negb (autoMinimizedOnce m) && minimized m); [|exact Hb].
    intros d Hd. unfold set_minimized, startTimer in *. cbn in Hd |- *.
    destruct (autoMinimizedOnce m); cbn in Hd |- *;
      first [injection Hd as <-; lia | exact (Hb d Hd)].
  - unfold elapse. intros d Hd. cbn in Hd |- *.
    destruct (timer m) as [d0|] eqn:T; cbn in Hd; [|rewrite T in Hd; discriminate].
    specialize (Hb d0 T). destruct (d0 <=? clock m + ms); cbn in Hd; [discriminate|].
    rewrite T in Hd. injection Hd as <-. lia.
Qed.

(** C35: the minimize timer terminates.  In every state reached from the
    mounted mascot, 3000 ms without events leave no timer pending; a timer
    that was pending has fired, minimizing the mascot and recording the
    automatic minimize, after which no timer is started again (C14). *)
Theorem timer_terminates present min0 m0 m :
  mascot_init present min0 = Some m0 -> reachable mascot_step m0 m ->
  timer (mascot_step m (Elapse 3000)) = None /\
  (timer m <> None -> minimized (mascot_step m (Elapse 3000)) = true /\
                      autoMinimizedOnce (mascot_step m (Elapse 3000)) = true).
Proof.
  intros Hi R. assert (Hb : timer_bound m).
  { pattern m. refine (reachable_invariant mascot_step _ _ _ _ m R); [|apply timer_bound_step].
    destruct present; [|discriminate]. injection Hi as <-. apply timer_bound_start. }
  cbn. unfold elapse. destruct (timer m) as [d|] eqn:T; [|cbn; rewrite T; split; [reflexivity | congruence]].
  replace (d <=? clock m + 3000) with true by (symmetry; apply Nat.leb_le, Hb, T).
  cbn. auto.
Qed.

(** ** Witnesses *)

(** The user closes the mascot a second after load, then clicks its
    image to reopen it. *)
Definition closed_early : mascot :=
  run mascot_step {| minimized := false; autoMinimizedOnce := false; timer := Some 3000; clock := 0 |}
    [Elapse 1000; Interact PointerDown; Click "IMG"].

Lemma click_cannot_reopen_witness :
  minimized (run mascot_step closed_early [Interact PointerDown; Click "IMG"]) = true.
Proof.
  rewrite (click_cannot_reopen closed_early "IMG"); reflexivity.
Defined.

Lemma auto_minimize_at_most_once_witness :
  timer_ok closed_early.
Proof.
  apply (proj1 (auto_minimize_at_most_once true false
    {| minimized := false; autoMinimizedOnce := false; timer := Some 3000; clock := 0 |}
    closed_early eq_refl ltac:(repeat constructor))).
Defined.

Lemma timer_minimizes_witness :
  minimized (mascot_step {| minimized := false; autoMinimizedOnce := false;
                            timer := Some 3000; clock := 0 |} (Elapse 5000)) = true.
Proof. apply (timer_minimizes _ 3000 5000); [reflexivity | lia]. Defined.

Lemma after_auto_minimize_toggle_witness :
  mascot_step {| minimized := true; autoMinimizedOnce := true; timer := None; clock := 4000 |}
    (Interact Scroll) =
  {| minimized := true; autoMinimizedOnce := true; timer := None; clock := 4000 |}.
Proof. apply (after_auto_minimize_toggle _ "IMG" Scroll); reflexivity. Defined.

Lemma timer_terminates_witness :
  timer (mascot_step closed_early (Elapse 3000)) = None.
Proof.
  apply (proj1 (timer_terminates true false
    {| minimized := false; autoMinimizedOnce := false; timer := Some 3000; clock := 0 |}
    closed_early eq_refl ltac:(repeat constructor))).
Defined.
