(* ===== verification/Carousel.v ===== *)
(** * Carousel: the disaster carousel of [src/main.js] (lines 114-162)

    Four slides ([disasters]) sit side by side in [#disaster-track], each
    as wide as the track.  [showSlide(i)] stores [(i + 4) % 4] in the global
    [slideIndex] and scrolls the track to [slideIndex * clientWidth]; the
    buttons call it with [slideIndex - 1] and [slideIndex + 1]; a pointer
    drag scrolls the track by hand and the release snaps to
    [Math.round(scrollLeft / clientWidth)]; a window resize re-shows the
    current slide.

    Slide indices are JavaScript numbers that are integers or [NaN]:
    [option Z], [None] for [NaN].  [%] is the truncating remainder
    [Z.rem].  Pixel quantities are rationals.  The browser keeps
    [scrollLeft] within [[0, 3 * clientWidth]] (four slides of the track's
    width) and a non-finite [scrollTo] target counts as 0; a smooth scroll
    is modelled by the position it ends at. *)

From Stdlib Require Import QArith Qround Qminmax Lqa ZArith Lia List String.
From S2P Require Import Prelude.
Import ListNotations.
Local Open Scope Q_scope.

Record disaster := { d_name : string; d_local : string; d_text : string }.

(** [disasters], lines 115-120. *)
Definition disasters : list disaster := [
  {| d_name := "Wildfires"; d_local := "./images/wildfire.jpg";
     d_text := "From space: Wildfires show up as bright orange/red hotspots using thermal sensors, while thick brown or gray smoke plumes often stretch for hundreds of kilometers. Burn scars appear as dark patches contrasting with surrounding land. Key features: Long smoke trails, rapid expansion, thermal signatures even through clouds." |};
  {| d_name := "Tsunamis"; d_local := "./images/tsunami.jpg";
     d_text := "From space: The tsunami wave itself is hard to spot—but the aftermath is visible: changed coastlines, flooded land, debris fields. Satellite images taken before and after an event reveal the full extent of flooding and structural damage. Key features: Altered shoreline, inundated lowlands, sediment plumes spreading into the ocean." |};
  {| d_name := "Floods"; d_local := "./images/flood.jpg";
     d_text := "From space: Floodwaters turn land unusually dark or blue, expanding beyond normal riverbanks seen in pre-event images. Space imagery quickly outlines the true size of affected areas, even when clouds obscure the ground. Key features: Large swaths of darkened or shimmering area, water pooled in fields and urban landscapes." |};
  {| d_name := "Sandstorms"; d_local := "./images/sandstorm.jpg";
     d_text := "From space: Massive sand or dust storms appear as tan or yellowish clouds moving across continents. These plumes can be traced from their origin (like the Sahara) as they travel thousands of kilometers, sometimes crossing oceans. Key features: Thick, billowing clouds of dust, often obscuring the surface below, moving in distinct fronts or swirls." |}
]%string.

Definition n_slides : Z := Z.of_nat (List.length disasters).

(** The slide built for a disaster, lines 130-146. *)
Record slide := { s_src : string; s_alt : string; s_title : string; s_text : string }.

Definition build_slide (d : disaster) : slide :=
  {| s_src := d_local d; s_alt := (d_name d ++ " from ISS")%string;
     s_title := d_name d; s_text := d_text d |}.

Record carousel := {
  slideIndex : option Z;          (** [None] is [NaN] *)
  scrollLeft : Q;                 (** [track.scrollLeft] *)
  clientWidth : Q;                (** [track.clientWidth] *)
  isDown : bool;
  startX : Q;
  startScroll : Q
}.

Inductive carousel_event :=
| PrevClick
| NextClick
| PointerDown (clientX : Q)
| PointerMove (clientX : Q)
| PointerUp
| WindowResize (newWidth : Q).    (** the track's width after the resize *)

(** The browser's clamp of a [scrollLeft] write. *)
Definition clamp_scroll (w v : Q) : Q := Qmax 0 (Qmin (inject_Z (n_slides - 1) * w) v).

(** [(i + disasters.length) % disasters.length]. *)
Definition wrap (i : option Z) : option Z :=
  option_map (fun i => Z.rem (i + n_slides) n_slides) i.

(** [showSlide(i)], lines 149-153. *)
Definition showSlide (c : carousel) (i : option Z) : carousel :=
  let idx := wrap i in
  let offset := match idx with Some k => inject_Z k * clientWidth c | None => 0 end in
  {| slideIndex := idx; scrollLeft := clamp_scroll (clientWidth c) offset;
     clientWidth := clientWidth c; isDown := isDown c; startX := startX c;
     startScroll := startScroll c |}.

(** [Math.round(scrollLeft / w)]: [NaN] or infinite when [w] is 0. *)
Definition round_div (x w : Q) : option Z :=
  if Qeq_bool w 0 then None else Some (Qfloor (x / w + (1 # 2))).

Definition succ_index (k : Z) (i : option Z) : option Z := option_map (Z.add k) i.

Definition carousel_step (c : carousel) (ev : carousel_event) : carousel :=
  match ev with
  | PrevClick => showSlide c (succ_index (-1) (slideIndex c))
  | NextClick => showSlide c (succ_index 1 (slideIndex c))
  | PointerDown x =>
      {| slideIndex := slideIndex c; scrollLeft := scrollLeft c; clientWidth := clientWidth c;
         isDown := true; startX := x; startScroll := scrollLeft c |}
  | PointerMove x =>
      if negb (isDown c) then c
      else {| slideIndex := slideIndex c;
              scrollLeft := clamp_scroll (clientWidth c) (startScroll c - (x - startX c));
              clientWidth := clientWidth c; isDown := true; startX := startX c;
              startScroll := startScroll c |}
  | PointerUp =>
      let c' := {| slideIndex := slideIndex c; scrollLeft := scrollLeft c;
                   clientWidth := clientWidth c; isDown := false; startX := startX c;
                   startScroll := startScroll c |} in
      showSlide c' (round_div (scrollLeft c) (clientWidth c))
  | WindowResize w =>
      showSlide {| slideIndex := slideIndex c; scrollLeft := clamp_scroll w (scrollLeft c);
                   clientWidth := w; isDown := isDown c; startX := startX c;
                   startScroll := startScroll c |} (slideIndex c)
  end.

(** The script's state once the track is built: [slideIndex = 0]. *)
Definition carousel_init (w : Q) : carousel :=
  {| slideIndex := Some 0%Z; scrollLeft := 0; clientWidth := w; isDown := false;
     startX := 0; startScroll := 0 |}.

(** ** Properties *)

(** A well-formed carousel: a track of positive width showing one of the
    four slides, scrolled within its range. *)
Definition good (c : carousel) : Prop :=
  0 < clientWidth c /\
  (exists k, slideIndex c = Some k /\ (0 <= k < 4)%Z) /\
  0 <= scrollLeft c <= 3 * clientWidth c.

(** The layout never gives the track a zero or negative width. *)
Definition resize_ok (ev : carousel_event) : Prop :=
  match ev with WindowResize w => 0 < w | _ => True end.

Lemma n_slides_eq : n_slides = 4%Z.
Proof. reflexivity. Qed.

Lemma clamp_scroll_range w v : 0 <= w -> 0 <= clamp_scroll w v <= 3 * w.
Proof.
  intros Hw. unfold clamp_scroll. rewrite n_slides_eq. split.
  - apply Q.le_max_l.
  - apply Q.max_lub; [lra|]. eapply Qle_trans; [apply Q.le_min_l|].
    assert (E : inject_Z (4 - 1) == 3) by reflexivity. rewrite E. lra.
Qed.

Lemma wrap_range i : (-4 <= i)%Z -> exists k, wrap (Some i) = Some k /\ (0 <= k < 4)%Z.
Proof.
  intros Hi. exists (Z.rem (i + 4) 4). split; [reflexivity|].
  apply Z.rem_bound_pos; lia.
Qed.

Lemma wrap_id k : (0 <= k < 4)%Z -> wrap (Some k) = Some k.
Proof.
  intros Hk. unfold wrap; cbn [option_map]. rewrite n_slides_eq. f_equal.
  rewrite Z.rem_mod_nonneg by lia.
  replace (k + 4)%Z with (k + 1 * 4)%Z by lia. rewrite Z.mod_add by lia. apply Z.mod_small; lia.
Qed.

Lemma showSlide_good c i :
  0 < clientWidth c -> (-4 <= i)%Z -> good (showSlide c (Some i)).
Proof.
  intros Hw Hi. destruct (wrap_range i Hi) as (k & Hk & Hr).
  unfold showSlide. rewrite Hk. repeat split; cbn; try lra.
  - exists k; auto.
  - apply clamp_scroll_range; lra.
  - apply clamp_scroll_range; lra.
Qed.

(** [Math.round] of a point of the scroll range, in slide widths. *)
Lemma round_in_range x w :
  0 < w -> 0 <= x <= 3 * w -> (0 <= Qfloor (x / w + (1 # 2)) <= 3)%Z.
Proof.
  intros Hw Hx.
  assert (Hq : 0 <= x / w <= 3).
  { split; [apply Qle_shift_div_l; lra | apply Qle_shift_div_r; lra]. }
  split.
  - change 0%Z with (Qfloor 0). apply Qfloor_resp_le. lra.
  - pose proof (Qfloor_le (x / w + (1 # 2))) as Hf.
    assert (H4 : inject_Z (Qfloor (x / w + (1 # 2))) < inject_Z 4) by (change (inject_Z 4) with 4; lra).
    rewrite <- Zlt_Qlt in H4. lia.
Qed.

Lemma good_intro c k :
  0 < clientWidth c -> slideIndex c = Some k -> (0 <= k < 4)%Z ->
  0 <= scrollLeft c <= 3 * clientWidth c -> good c.
Proof. intros Hw Hk Hr Hs. split; [exact Hw|]. split; [exists k; auto | exact Hs]. Qed.

Lemma good_step c ev : good c -> resize_ok ev -> good (carousel_step c ev).
Proof.
  intros (Hw & (k & Hk & Hr) & Hs) Hev. destruct ev as [| |x|x| |w]; cbn in Hev |- *.
  - rewrite Hk. apply showSlide_good; [exact Hw | lia].
  - rewrite Hk. apply showSlide_good; [exact Hw | lia].
  - apply (good_intro _ k); cbn; auto.
  - destruct (isDown c); cbn; apply (good_intro _ k); cbn; auto.
    apply clamp_scroll_range; lra.
  - unfold round_div. destruct (Qeq_bool (clientWidth c) 0) eqn:E.
    + apply Qeq_bool_eq in E. lra.
    + apply showSlide_good; [exact Hw|].
      pose proof (round_in_range _ _ Hw Hs). lia.
  - rewrite Hk. apply showSlide_good; [exact Hev | lia].
Qed.

(** C17: from a track of positive width, whatever the clicks, drags and
    resizes (to positive widths), the carousel always shows one of its
    four slides, and the track stays within its scroll range. *)
Theorem slide_index_in_range w evs :
  0 < w -> Forall resize_ok evs -> good (run carousel_step (carousel_init w) evs).
Proof.
  intros Hw Hevs. assert (Hg : good (carousel_init w)).
  { repeat split; cbn; try lra. exists 0%Z. split; [reflexivity | lia]. }
  revert Hg. generalize (carousel_init w). induction Hevs as [|ev evs Hev _ IH]; intros c Hg.
  - exact Hg.
  - rewrite run_cons. apply IH. now apply good_step.
Qed.

Lemma clamp_scroll_id w v : 0 <= v <= 3 * w -> clamp_scroll w v == v.
Proof.
  intros Hv. unfold clamp_scroll. rewrite n_slides_eq.
  assert (E : inject_Z (4 - 1) == 3) by reflexivity. rewrite E.
  rewrite Q.min_r by lra. apply Q.max_r. lra.
Qed.

(** C18: the buttons are inverse to each other and cycle through the four
    slides: next then previous, or previous then next, comes back to the
    slide shown, and four nexts go all the way round. *)
Theorem next_prev_roundtrip c :
  good c ->
  slideIndex (run carousel_step c [NextClick; PrevClick]) = slideIndex c /\
  slideIndex (run carousel_step c [PrevClick; NextClick]) = slideIndex c /\
  slideIndex (run carousel_step c [NextClick; NextClick; NextClick; NextClick]) = slideIndex c.
Proof.
  intros (_ & (k & Hk & Hr) & _). cbn [run fold_left carousel_step showSlide slideIndex].
  rewrite Hk. assert (Hc : k = 0%Z \/ k = 1%Z \/ k = 2%Z \/ k = 3%Z) by lia.
  destruct Hc as [ -> | [ -> | [ -> | -> ]]]; repeat split; reflexivity.
Qed.

(** C19: releasing a drag snaps the track to the nearest slide:
    [slideIndex] becomes [Math.round(scrollLeft / clientWidth)] and the
    track scrolls to exactly that slide's offset. *)
Theorem pointerup_snaps c :
  good c ->
  let k := Qfloor (scrollLeft c / clientWidth c + (1 # 2)) in
  let c' := carousel_step c PointerUp in
  slideIndex c' = Some k /\ scrollLeft c' == inject_Z k * clientWidth c /\ isDown c' = false.
Proof.
  intros (Hw & _ & Hs). cbv zeta. cbn [carousel_step]. unfold round_div.
  destruct (Qeq_bool (clientWidth c) 0) eqn:E; [apply Qeq_bool_eq in E; lra|].
  pose proof (round_in_range _ _ Hw Hs) as Hr.
  unfold showSlide. rewrite wrap_id by lia. cbn [slideIndex scrollLeft isDown clientWidth].
  split; [reflexivity|]. split; [|reflexivity].
  apply clamp_scroll_id. split.
  - apply Qmult_le_0_compat; [|lra]. change 0 with (inject_Z 0). rewrite <- Zle_Qle. lia.
  - apply Qmult_le_compat_r; [|lra]. change 3 with (inject_Z 3). rewrite <- Zle_Qle. lia.
Qed.

(** C20: a release on a track of zero width makes [slideIndex] [NaN]
    ([Math.round] of [0/0] or of [Infinity], wrapped by [%]); from then on
    the buttons keep it [NaN] and scroll the track to its start. *)
Theorem zero_width_release_nan c :
  clientWidth c == 0 ->
  let c' := carousel_step c PointerUp in
  slideIndex c' = None /\
  slideIndex (carousel_step c' NextClick) = None /\
  slideIndex (carousel_step c' PrevClick) = None /\
  scrollLeft (carousel_step c' NextClick) == 0.
Proof.
  intros Hw. cbv zeta. cbn [carousel_step]. unfold round_div.
  rewrite (proj2 (Qeq_bool_iff _ _) Hw). cbn. repeat split; try reflexivity.
  unfold clamp_scroll. rewrite Q.min_r; [apply Q.max_id|]. rewrite Hw. lra.
Qed.

(** ** Witnesses *)

Definition demo_carousel : carousel := carousel_init 600.

Lemma slide_index_in_range_witness :
  good (run carousel_step demo_carousel
          [PrevClick; PointerDown 300; PointerMove 10; PointerUp; WindowResize 400; NextClick]).
Proof. apply slide_index_in_range; [lra | repeat constructor; cbn; lra]. Defined.

Lemma next_prev_roundtrip_witness :
  slideIndex (run carousel_step (carousel_step demo_carousel PrevClick) [NextClick; PrevClick]) = Some 3%Z.
Proof.
  assert (Hg : good (carousel_step demo_carousel PrevClick))
    by (apply (good_intro _ 3); vm_compute; try split; discriminate || reflexivity).
  rewrite (proj1 (next_prev_roundtrip _ Hg)). reflexivity.
Defined.

(** A drag of 700 pixels to the left on a 600-pixel track snaps to slide 1. *)
Lemma pointerup_snaps_witness :
  slideIndex (run carousel_step demo_carousel [PointerDown 800; PointerMove 100; PointerUp]) = Some 1%Z.
Proof.
  destruct (pointerup_snaps (run carousel_step demo_carousel [PointerDown 800; PointerMove 100])) as [E _].
  - apply (good_intro _ 0); vm_compute; try split; discriminate || reflexivity.
  - cbn [run fold_left] in E |- *. rewrite E. reflexivity.
Defined.

Lemma zero_width_release_nan_witness :
  slideIndex (carousel_step (carousel_step (carousel_init 0) PointerUp) NextClick) = None.
Proof. apply (zero_width_release_nan (carousel_init 0)). reflexivity. Defined.
