(* ===== verification/Routing.v ===== *)
(** * Routing: the hash routing of [src/main.js] (lines 1-9, 50-51)

    [activateFromHash] reads [location.hash] (defaulting to [#home]), marks
    the [.tab] whose [href] equals it [active] and shows the [.section]
    whose [#id] equals it, hiding the others ([display = 'none']).  It runs
    once at load and on every [hashchange]; its result depends on the hash
    alone, so the page's routing state is the function below. *)

From Stdlib Require Import List Bool String Arith Lia.
From S2P Require Import Prelude.
Import ListNotations.
Local Open Scope string_scope.

(** [location.hash || '#home']: the empty string is falsy. *)
Definition current_hash (hash : string) : string :=
  if String.eqb hash "" then "#home" else hash.

(** [t.getAttribute('href') === hash]; a tab without [href] gives [null]. *)
Definition tab_active (hash : string) (href : option string) : bool :=
  match href with Some h => String.eqb h hash | None => false end.

(** [sec.style.display]: [''] when shown, ['none'] when hidden. *)
Definition section_display (hash : string) (id : string) : string :=
  if String.eqb ("#" ++ id) hash then "" else "none".

(** [activateFromHash], lines 5-9: the [active] flag of every tab and the
    [display] of every section, in document order. *)
Definition activateFromHash (hash : string) (tabs : list (option string)) (sections : list string)
  : list bool * list string :=
  let h := current_hash hash in
  (map (tab_active h) tabs, map (section_display h) sections).

Definition shown (d : string) : bool := String.eqb d "".

Lemma section_display_shown hash id :
  shown (section_display hash id) = true <-> "#" ++ id = hash.
Proof.
  unfold shown, section_display. destruct (String.eqb_spec ("#" ++ id) hash) as [E|E].
  - split; [intros _; exact E | intros _; reflexivity].
  - split; [intros H; discriminate H | intros H; contradiction].
Qed.

Lemma hash_prefix_inj a b : "#" ++ a = "#" ++ b -> a = b.
Proof. cbn. intros H. now injection H. Qed.

(** No section is shown when no id matches the hash. *)
Lemma none_shown hash ids :
  (forall id, In id ids -> "#" ++ id <> hash) ->
  filter shown (map (section_display hash) ids) = [].
Proof.
  induction ids as [|id ids IH]; intros Hn; cbn; [reflexivity|].
  destruct (shown (section_display hash id)) eqn:E.
  - apply section_display_shown in E. exfalso. apply (Hn id); [now left | exact E].
  - apply IH. intros x Hx. apply Hn. now right.
Qed.

(** C21: with distinct section ids, whatever the hash, at most one
    section is displayed. *)
Theorem at_most_one_section hash tabs ids :
  NoDup ids ->
  List.length (filter shown (snd (activateFromHash hash tabs ids))) <= 1.
Proof.
  cbn [snd activateFromHash]. generalize (current_hash hash) as h. intros h.
  induction 1 as [|id ids Hnin Hnd IH]; cbn; [lia|].
  destruct (shown (section_display h id)) eqn:E; cbn; [|exact IH].
  apply section_display_shown in E. rewrite none_shown; [cbn; lia|].
  intros x Hx Hxe. apply Hnin. rewrite <- E in Hxe. apply hash_prefix_inj in Hxe. now subst.
Qed.

(** C22: an empty hash is read as [#home]: the [home] section is shown and
    every other section is hidden. *)
Theorem empty_hash_shows_home tabs ids :
  Forall2 (fun id d => shown d = true <-> id = "home") ids (snd (activateFromHash "" tabs ids)).
Proof.
  cbn [snd activateFromHash current_hash String.eqb]. induction ids as [|id ids IH]; cbn; constructor.
  - rewrite section_display_shown. split; [apply hash_prefix_inj | now intros ->].
  - exact IH.
Qed.

(** A non-empty hash is read as it is. *)
Lemma current_hash_nonempty hash : hash <> "" -> current_hash hash = hash.
Proof. unfold current_hash. destruct (String.eqb_spec hash "") as [E|E]; [contradiction | reflexivity]. Qed.

(** C23: a non-empty hash that names no section ([#contact], a typo)
    hides every section, [home] included: the page goes blank instead of
    falling back to [#home], which the code does only for an empty hash. *)
Theorem unknown_hash_hides_all hash tabs ids :
  hash <> "" -> (forall id, In id ids -> "#" ++ id <> hash) ->
  filter shown (snd (activateFromHash hash tabs ids)) = [].
Proof.
  intros Hne Hn. cbn [snd activateFromHash]. rewrite current_hash_nonempty by exact Hne.
  apply none_shown. exact Hn.
Qed.

(** ** Witnesses: the page's tabs and sections *)

Definition page_tabs : list (option string) := [Some "#home"; Some "#education"; Some "#gallery"].
Definition page_sections : list string := ["home"; "education"; "gallery"].

Lemma at_most_one_section_witness :
  List.length (filter shown (snd (activateFromHash "#gallery" page_tabs page_sections))) <= 1.
Proof.
  apply at_most_one_section. repeat constructor; cbn; intuition discriminate.
Defined.

Lemma unknown_hash_hides_all_witness :
  filter shown (snd (activateFromHash "#contact" page_tabs page_sections)) = [].
Proof.
  apply unknown_hash_hides_all; [discriminate|]. intros id Hid. cbn in Hid.
  destruct Hid as [<-|[<-|[<-|[]]]]; discriminate.
Defined.
