(* ===== verification/Lightbox.v ===== *)
(** * Lightbox: the gallery thumbnails and lightbox of [src/main.js]

    Lines 53-112 build one [button.thumb] per [galleryItems] entry.  Each
    thumbnail keeps [isDraggingThumb] and [startX]: a [pointerdown] resets
    them, a [pointermove] farther than 8 pixels from [startX] marks a swipe,
    and a [click] that is not part of a swipe fills the lightbox with the
    item and shows it.  The close button hides the lightbox, and so does a
    click whose target is the lightbox backdrop itself.

    [spec_step] is what a lightbox promises whichever page draws it: an
    abstract machine over [lb_op] whose state is the item shown, if any.
    [vanilla_refines_spec] shows the thumbnails implement it; the React
    gallery ([GalleryReact]) implements it too. *)

From Stdlib Require Import QArith Qabs Lqa List Bool String Arith Lia.
From S2P Require Import Prelude.
Import ListNotations.
Local Open Scope Q_scope.

(** ** The abstract lightbox *)

(** What a lightbox shows: the image URL, its title and its description. *)
Definition shown_item : Type := string * string * string.

Inductive lb_op :=
| OpOpen (i : nat)          (** a tap on the [i]-th thumbnail or card *)
| OpClose                   (** a click on the close button *)
| OpBackdrop                (** a click on the backdrop around the image *)
| OpContent.                (** a click on the image or its caption *)

Definition spec_step (items : list shown_item) (o : option shown_item) (op : lb_op)
  : option shown_item :=
  match op with
  | OpOpen i => match nth_error items i with Some it => Some it | None => o end
  | OpClose | OpBackdrop => None
  | OpContent => o
  end.

(** ** The vanilla thumbnails *)

Record gallery_item := { gi_local : string; gi_title : string; gi_description : string }.

(** [galleryItems], lines 54-60. *)
Definition galleryItems : list gallery_item := [
  {| gi_local := "earths-horizon.jpg"; gi_title := "Earth's Horizon"; gi_description := "Curvature and atmosphere from Cupola" |};
  {| gi_local := "cupola-inner.jpg"; gi_title := "Cupola Inner"; gi_description := "Inside the seven-windowed observatory" |};
  {| gi_local := "cupola-sunset.jpg"; gi_title := "Cupola Sunset"; gi_description := "Sunset scenes from orbit" |};
  {| gi_local := "nanoracks-cupola.jpg"; gi_title := "Nanoracks Cupola"; gi_description := "Commercial research at the window" |};
  {| gi_local := "ISS-training.jpg"; gi_title := "ISS Training"; gi_description := "Astronaut training and preparation" |}
]%string.

Definition transparentPng : string :=
  "data:image/png;base64,iVBORw0KGgoAAAANSUhEUgAAAAEAAAABCAQAAAC1HAwCAAAAC0lEQVR42mP8Xw8AArgBvYw3/SEAAAAASUVORK5CYII=".

(** A thumbnail button: its item, its image source and the closure
    variables of its swipe detection. *)
Record thumb := {
  th_item : gallery_item;
  th_src : string;
  isDraggingThumb : bool;
  th_startX : Q
}.

Record lightbox := {
  lb_hidden : bool;               (** [lightbox.classList.contains('hidden')] *)
  lb_src : string;
  lb_alt : string;
  lb_title : string;
  lb_desc : string;
  lb_onerror : bool               (** [lightboxImg.onerror] is installed *)
}.

Record vgallery := {
  thumbs : list thumb;
  lb : lightbox;
  type_errors : nat               (** [TypeError]s thrown out of listeners *)
}.

(** The element a click on the lightbox lands on. *)
Inductive lb_target := OnBackdrop | OnImage | OnTitle | OnDesc | OnCloseButton.

Inductive vg_event :=
| ThumbPointerDown (i : nat) (clientX : Q)
| ThumbPointerMove (i : nat) (clientX : Q)
| ThumbPointerUp (i : nat)
| ThumbClick (i : nat)            (** a click, by pointer or by keyboard *)
| ThumbImgError (i : nat)
| LightboxImgError
| LightboxClick (t : lb_target).

(** The thumbnail of lines 72-87 for an item. *)
Definition make_thumb (it : gallery_item) : thumb :=
  {| th_item := it; th_src := gi_local it; isDraggingThumb := false; th_startX := 0 |}.

Definition set_drag_thumb (t : thumb) (d : bool) (x : Q) : thumb :=
  {| th_item := th_item t; th_src := th_src t; isDraggingThumb := d; th_startX := x |}.

Definition with_thumbs (g : vgallery) (ts : list thumb) : vgallery :=
  {| thumbs := ts; lb := lb g; type_errors := type_errors g |}.

Definition with_lb (g : vgallery) (l : lightbox) : vgallery :=
  {| thumbs := thumbs g; lb := l; type_errors := type_errors g |}.

Definition hide (l : lightbox) : lightbox :=
  {| lb_hidden := true; lb_src := lb_src l; lb_alt := lb_alt l; lb_title := lb_title l;
     lb_desc := lb_desc l; lb_onerror := lb_onerror l |}.

(** The click listener of lines 95-103. *)
Definition onThumbClick (g : vgallery) (t : thumb) : vgallery :=
  if isDraggingThumb t then g
  else let it := th_item t in
       with_lb g {| lb_hidden := false; lb_src := gi_local it; lb_alt := gi_title it;
                    lb_title := gi_title it; lb_desc := gi_description it; lb_onerror := true |}.

(** A click inside the lightbox: the close button's listener (line 110)
    runs first if it is the target, then the click bubbles to the lightbox,
    whose listener (line 111) hides it only if it is the target. *)
Definition onLightboxClick (l : lightbox) (t : lb_target) : lightbox :=
  let l := match t with OnCloseButton => hide l | _ => l end in
  match t with OnBackdrop => hide l | _ => l end.

Definition vg_step (g : vgallery) (ev : vg_event) : vgallery :=
  match ev with
  | ThumbPointerDown i x => with_thumbs g (update_nth i (fun t => set_drag_thumb t false x) (thumbs g))
  | ThumbPointerMove i x =>
      with_thumbs g (update_nth i (fun t =>
        if Qlt_le_dec 8 (Qabs (x - th_startX t)) then set_drag_thumb t true (th_startX t) else t)
        (thumbs g))
  | ThumbPointerUp i =>
      (* [el.releasePointerCapture()] with no pointer id: a TypeError *)
      match nth_error (thumbs g) i with
      | Some _ => {| thumbs := thumbs g; lb := lb g; type_errors := S (type_errors g) |}
      | None => g
      end
  | ThumbClick i =>
      match nth_error (thumbs g) i with Some t => onThumbClick g t | None => g end
  | ThumbImgError i =>
      with_thumbs g (update_nth i (fun t =>
        {| th_item := th_item t; th_src := transparentPng; isDraggingThumb := isDraggingThumb t;
           th_startX := th_startX t |}) (thumbs g))
  | LightboxImgError =>
      let l := lb g in
      if lb_onerror l then
        with_lb g {| lb_hidden := lb_hidden l; lb_src := transparentPng; lb_alt := lb_alt l;
                     lb_title := lb_title l; lb_desc := lb_desc l; lb_onerror := true |}
      else g
  | LightboxClick t => with_lb g (onLightboxClick (lb g) t)
  end.

(** The page after the script ran: the thumbnails if [#gallery-grid]
    exists, and the lightbox of the markup, [hidden]. *)
Definition vg_init (grid : bool) : vgallery :=
  {| thumbs := if grid then map make_thumb galleryItems else [];
     lb := {| lb_hidden := true; lb_src := ""; lb_alt := ""; lb_title := ""; lb_desc := "";
              lb_onerror := false |};
     type_errors := 0 |}%string.

(** What the vanilla lightbox shows. *)
Definition vg_shown (g : vgallery) : option shown_item :=
  let l := lb g in if lb_hidden l then None else Some (lb_src l, lb_title l, lb_desc l).

Definition item_shown (it : gallery_item) : shown_item := (gi_local it, gi_title it, gi_description it).

(** An abstract operation as the user performs it on the page: a tap is a
    press, a release and a click at the same point. *)
Definition vg_events (op : lb_op) : list vg_event :=
  match op with
  | OpOpen i => [ThumbPointerDown i 0; ThumbPointerUp i; ThumbClick i]
  | OpClose => [LightboxClick OnCloseButton]
  | OpBackdrop => [LightboxClick OnBackdrop]
  | OpContent => [LightboxClick OnImage]
  end.

(** ** Properties *)

(** Every event keeps each thumbnail's item. *)
Lemma vg_step_items g ev : map th_item (thumbs (vg_step g ev)) = map th_item (thumbs g).
Proof.
  destruct ev as [i x|i x|i|i|i| |t]; cbn [vg_step with_thumbs with_lb thumbs];
    try apply map_update_nth_id; try reflexivity.
  - intros u. destruct (Qlt_le_dec 8 (Qabs (x - th_startX u))); reflexivity.
  - destruct (nth_error (thumbs g) i); reflexivity.
  - destruct (nth_error (thumbs g) i) as [u|]; [unfold onThumbClick; destruct (isDraggingThumb u)|]; reflexivity.
  - destruct (lb_onerror (lb g)); reflexivity.
Qed.

Lemma run_items g evs : map th_item (thumbs (run vg_step g evs)) = map th_item (thumbs g).
Proof.
  revert g; induction evs as [|ev evs IH]; intros g; [reflexivity|].
  rewrite run_cons, IH. apply vg_step_items.
Qed.

Lemma nth_error_thumb g i it :
  map th_item (thumbs g) = galleryItems -> nth_error galleryItems i = Some it ->
  exists t, nth_error (thumbs g) i = Some t /\ th_item t = it.
Proof.
  intros Hm Hi. rewrite <- Hm, nth_error_map in Hi.
  destruct (nth_error (thumbs g) i) as [t|]; cbn in Hi; [|discriminate].
  injection Hi as <-. eauto.
Qed.

Lemma nth_error_no_thumb g i :
  map th_item (thumbs g) = galleryItems -> nth_error galleryItems i = None ->
  nth_error (thumbs g) i = None.
Proof.
  intros Hm Hi. rewrite <- Hm, nth_error_map in Hi.
  destruct (nth_error (thumbs g) i); [discriminate | reflexivity].
Qed.

(** A tap on the [i]-th thumbnail: press and release at one point, then
    the click. *)
Lemma tap_opens g i :
  map th_item (thumbs g) = galleryItems ->
  vg_shown (run vg_step g (vg_events (OpOpen i))) =
  spec_step (map item_shown galleryItems) (vg_shown g) (OpOpen i).
Proof.
  intros Hm. cbn [vg_events spec_step]. rewrite nth_error_map.
  destruct (nth_error galleryItems i) as [it|] eqn:Hi.
  - destruct (nth_error_thumb g i it Hm Hi) as (t & Ht & <-).
    cbn [run fold_left vg_step with_thumbs thumbs].
    rewrite nth_error_update_nth_eq, Ht. cbn [option_map lb type_errors thumbs].
    rewrite nth_error_update_nth_eq, Ht. reflexivity.
  - pose proof (nth_error_no_thumb g i Hm Hi) as Hn.
    cbn [run fold_left vg_step with_thumbs thumbs].
    rewrite nth_error_update_nth_eq, Hn. cbn. rewrite nth_error_update_nth_eq, Hn. reflexivity.
Qed.

Lemma vg_op_refines g op :
  map th_item (thumbs g) = galleryItems ->
  vg_shown (run vg_step g (vg_events op)) = spec_step (map item_shown galleryItems) (vg_shown g) op.
Proof.
  intros Hm. destruct op as [i| | |]; [now apply tap_opens | reflexivity | reflexivity |].
  cbn. unfold vg_shown. destruct (lb g); reflexivity.
Qed.

(** C24: the vanilla thumbnails and lightbox implement the abstract
    lightbox: after any sequence of taps on thumbnails, close-button
    clicks, backdrop clicks and clicks on the image, the lightbox shows
    exactly what [spec_step] says over [galleryItems]. *)
Theorem vanilla_refines_spec ops :
  vg_shown (run vg_step (vg_init true) (flat_map vg_events ops)) =
  fold_left (spec_step (map item_shown galleryItems)) ops None.
Proof.
  change None with (vg_shown (vg_init true)).
  assert (Hm : map th_item (thumbs (vg_init true)) = galleryItems) by reflexivity.
  revert Hm. generalize (vg_init true). induction ops as [|op ops IH]; intros g Hm; [reflexivity|].
  cbn [flat_map fold_left]. rewrite run_app, IH.
  - now rewrite vg_op_refines.
  - now rewrite run_items.
Qed.

(** C25: a mouse hover ignores the press: [pointermove] fires without a
    button held, so moving the pointer more than 8 pixels from the last
    [startX] (0 before any press) over a thumbnail marks a swipe, and a
    click that comes without a [pointerdown] (keyboard activation with
    Enter or Space) is then ignored: the lightbox does not change. *)
Theorem hover_blocks_keyboard_click g i t x :
  nth_error (thumbs g) i = Some t -> 8 < Qabs (x - th_startX t) ->
  lb (run vg_step g [ThumbPointerMove i x; ThumbClick i]) = lb g.
Proof.
  intros Ht Hx. cbn [run fold_left vg_step with_thumbs thumbs].
  rewrite nth_error_update_nth_eq, Ht. cbn [option_map].
  destruct (Qlt_le_dec 8 (Qabs (x - th_startX t))); [reflexivity | lra].
Qed.

(** C26: a press, a move to [x1] and a release on the [i]-th thumbnail
    followed by its click open the lightbox on the item if the pointer
    moved at most 8 pixels, and leave it as it was after a swipe; the
    release always throws a [TypeError] ([releasePointerCapture] is called
    without its pointer id). *)
Theorem tap_or_swipe g i t x0 x1 :
  nth_error (thumbs g) i = Some t ->
  let g' := run vg_step g [ThumbPointerDown i x0; ThumbPointerMove i x1; ThumbPointerUp i; ThumbClick i] in
  vg_shown g' = (if Qlt_le_dec 8 (Qabs (x1 - x0)) then vg_shown g else Some (item_shown (th_item t))) /\
  type_errors g' = S (type_errors g).
Proof.
  intros Ht. cbv zeta. cbn [run fold_left vg_step with_thumbs thumbs].
  do 2 (rewrite !nth_error_update_nth_eq, Ht; cbn [option_map th_startX set_drag_thumb thumbs]).
  unfold onThumbClick, vg_shown.
  destruct (Qlt_le_dec 8 (Qabs (x1 - x0))); cbn; auto.
Qed.

(** ** Witnesses: the page as loaded *)

Definition nth_thumb (i : nat) : thumb :=
  nth i (thumbs (vg_init true)) (make_thumb {| gi_local := ""; gi_title := ""; gi_description := "" |}%string).

Lemma hover_blocks_keyboard_click_witness :
  lb (run vg_step (vg_init true) [ThumbPointerMove 0 100; ThumbClick 0]) = lb (vg_init true).
Proof.
  apply (hover_blocks_keyboard_click _ 0 (nth_thumb 0) 100);
    [reflexivity | cbn; lra].
Defined.

Lemma tap_or_swipe_witness :
  vg_shown (run vg_step (vg_init true)
    [ThumbPointerDown 1 50; ThumbPointerMove 1 53; ThumbPointerUp 1; ThumbClick 1]) =
  Some ("cupola-inner.jpg", "Cupola Inner", "Inside the seven-windowed observatory")%string.
Proof.
  rewrite (proj1 (tap_or_swipe (vg_init true) 1 (nth_thumb 1) 50 53 eq_refl)).
  reflexivity.
Defined.
