(* ===== verification/GlobeFloat.v ===== *)
(** * GlobeFloat: the vanilla globe in binary64

    The theorems of [Globe] are proved with exact rationals.  JavaScript
    computes [vel.x *= .95] in IEEE 754 binary64, and there the damping of
    [animate] (src/main.js line 309) behaves differently once the velocity
    is subnormal: the product rounds back to the same double, so the
    velocity never decays below nine times the smallest subnormal,
    [2^-1074].  This file runs the controller at [JSNum_F64] and proves
    that a coasting Earth ends at that fixed point, and stays there, after
    at most 15000 frames (about four minutes at 60 frames per second).

    [float_trig] and [float_picker] are the [MathTrig] and [EarthPicker]
    instances at binary64 that the witness runs the controller with: the
    series of [JsNum.series_trig] and the sphere test of
    [Globe.sphere_pick], in floating point. *)

From Corelib Require Import PrimFloat PrimInt63.
From Stdlib Require Import QArith ZArith List Bool Arith Lia.
From S2P Require Import Prelude JsNum GallerySwipe Globe.
Import ListNotations.
Local Open Scope cupola_scope.

(** ** The damping at binary64 *)

(** The velocity at which the damping stops: [9 * 2^-1074]. *)
Definition vel_floor : float := ldshiftexp (z2f 9) 1027%uint63.

(** One frame's damping of a velocity component. *)
Definition damp (v : float) : float := v ⊗ ⟪0.95⟫.

(** The drags the theorem covers: a displacement of 1 to 200 pixels in
    either direction, of which the velocity is [d * .005]. *)
Definition drag_vel (d : Z) : float := z2f d ⊗ ⟪0.005⟫.

(** [vel_floor] with the sign of the drag. *)
Definition signed_floor (d : Z) : float :=
  if Z.ltb 0 d then vel_floor else PrimFloat.opp vel_floor.

Lemma damp_floor d : damp (signed_floor d) = signed_floor d.
Proof. unfold signed_floor. destruct (Z.ltb 0 d); vm_compute; reflexivity. Qed.

Lemma iter_fixed (f : float -> float) v k : f v = v -> Nat.iter k f v = v.
Proof. intros Hv. induction k as [|k IH]; [reflexivity|]. rewrite Nat.iter_succ, IH. exact Hv. Qed.

(** The drag displacements of the range, in pixels. *)
Definition drag_range : list Z := map (fun n => Z.of_nat n - 200)%Z (seq 0 200 ++ seq 201 200).

(** The kernel runs the 15000 frames of each of the 400 drags, at once. *)
Lemma drags_stall :
  map (fun d => Nat.iter 15000 damp (drag_vel d)) drag_range = map signed_floor drag_range.
Proof. vm_compute. reflexivity. Qed.

Lemma map_eq_in {A B} (f g : A -> B) l x : map f l = map g l -> In x l -> f x = g x.
Proof.
  induction l as [|y l IH]; cbn; [contradiction|].
  intros E [<-|Hx]; injection E; auto.
Qed.

Lemma drag_stalls d :
  (1 <= Z.abs d <= 200)%Z -> Nat.iter 15000 damp (drag_vel d) = signed_floor d.
Proof.
  intros Hd. apply (map_eq_in _ _ _ _ drags_stall). apply in_map_iff.
  exists (Z.to_nat (d + 200)). split; [lia|]. apply in_app_iff.
  destruct (Z.ltb_spec d 0); [left | right]; apply in_seq; lia.
Qed.

Section Damping.
Context `{MathTrig float} `{EarthPicker float}.

Lemma frames_vel (s : @globe float) n :
  vel_x (g_spin (run globe_step s (repeat AnimationFrame n))) = Nat.iter n damp (vel_x (g_spin s)) /\
  vel_y (g_spin (run globe_step s (repeat AnimationFrame n))) = Nat.iter n damp (vel_y (g_spin s)).
Proof.
  rewrite frames_spin_iter. generalize (g_spin s) as sp. generalize (isDragging (g_gesture s)) as b.
  intros b sp. induction n as [|n IH]; [split; reflexivity|].
  rewrite !Nat.iter_succ. destruct IH as [Hx Hy]. rewrite <- Hx, <- Hy. split; reflexivity.
Qed.

(** C29: in binary64 the damping stops short of zero.  After a drag of 1
    to 200 pixels on each axis, the velocity components reach [9 * 2^-1074]
    (with the sign of the drag) within 15000 idle frames and keep exactly
    that value on every later frame: the product [v * .95] rounds back to
    [v], so the velocity never decays below it and is never 0. *)
Theorem coasting_stalls_binary64 (s : @globe float) dx dy k :
  (1 <= Z.abs dx <= 200)%Z -> (1 <= Z.abs dy <= 200)%Z ->
  vel_x (g_spin s) = drag_vel dy -> vel_y (g_spin s) = drag_vel dx ->
  let sp := g_spin (run globe_step s (repeat AnimationFrame (15000 + k))) in
  vel_x sp = signed_floor dy /\ vel_y sp = signed_floor dx /\
  PrimFloat.eqb vel_floor PrimFloat.zero = false.
Proof.
  intros Hx Hy Hvx Hvy. cbv zeta. destruct (frames_vel s (15000 + k)) as [Ex Ey].
  rewrite Ex, Ey, Hvx, Hvy, Nat.add_comm, !Nat.iter_add, !drag_stalls by assumption.
  rewrite !iter_fixed by apply damp_floor. split; [|split]; reflexivity.
Qed.

End Damping.

(** ** Instances at binary64 *)

Section Instances.
Local Open Scope float_scope.

(** The series to degree 12 of [Math.cos] and [Math.sin], accurate for
    the angles of a few turns that the planets reach. *)
Fixpoint fseries (x term : float) (k n : nat) : float :=
  match n with
  | O => zero
  | S n => term + fseries x (- term * x * x / (z2f (Z.of_nat (S k)) * z2f (Z.of_nat (S (S k))))) (S (S k)) n
  end.

#[export] Instance float_trig : MathTrig float := {
  math_cos a := fseries a one 0 7;
  math_sin a := fseries a a 1 7
}.

Definition float_pick (c : @camera float) (rx ry px py : float) : bool :=
  let t := q2f 0.7673269879789604 in
  let a := px * cam_aspect c * t in
  let b := py * t in
  cam_z c * cam_z c * (a * a + b * b) <=? q2f (9 # 4) * (a * a + b * b + one).

#[export] Instance float_picker : EarthPicker float := float_pick.

End Instances.


(** ** Witness: a drag of 100 by 20 pixels on the mounted globe *)

Definition dragged_f64 : @globe float :=
  run globe_step (animate (globe_init (q2f 800) (q2f 600) (q2f 0) (q2f 0) None (fun _ => q2f 0.5)))
    [MouseDown (q2f 400) (q2f 300); MouseMove (q2f 500) (q2f 320)].

Lemma coasting_stalls_binary64_witness :
  vel_x (g_spin (run globe_step dragged_f64 (repeat AnimationFrame (15000 + 60)))) = vel_floor /\
  vel_y (g_spin (run globe_step dragged_f64 (repeat AnimationFrame (15000 + 60)))) = vel_floor.
Proof.
  destruct (coasting_stalls_binary64 dragged_f64 100 20 60) as (Ex & Ey & _);
    [lia | lia | vm_compute; reflexivity | vm_compute; reflexivity |].
  rewrite Ex, Ey. split; reflexivity.
Defined.
