(* ===== verification/GalleryReact.v ===== *)
(** * GalleryReact: the [Gallery] page of [src/gallery.js]

    The component keeps one piece of state, [selectedImage] (line 6), and
    renders one card per [cupolaImages] entry (lines 8-18, 48-78).  A click
    on a card selects its image (line 55); while an image is selected the
    overlay of lines 98-132 is rendered.  React dispatches a click from its
    target outwards: the close button's handler (line 124) clears the
    selection, the inner panel's handler (line 110) stops the propagation,
    and the overlay's handler (line 103) clears the selection when the
    click reaches it, that is when it lands on the backdrop itself.

    [gallery_refines_spec] shows that the component implements the abstract
    lightbox [Lightbox.spec_step] over its own image list, as the vanilla
    thumbnails do over theirs. *)

From Stdlib Require Import List Bool String Arith Lia.
From S2P Require Import Prelude Lightbox.
Import ListNotations.

Record cupola_image := { url : string; title : string; description : string }.

(** [cupolaImages], lines 8-18. *)
Definition cupolaImages : list cupola_image := [
  {| url := "./images/cupola-inner.jpg"; title := "Cupola Interior View"; description := "The iconic seven-windowed observatory module on the ISS" |};
  {| url := "./images/earths-horizon.jpg"; title := "Earth's Horizon"; description := "Stunning view of Earth's curvature and atmosphere from the Cupola" |};
  {| url := "./images/cupola-sunset.jpg"; title := "Cupola Sunset"; description := "Sunset scenes from orbit" |};
  {| url := "./images/interior-view.jpg"; title := "Interior View"; description := "Module interior and observation station" |};
  {| url := "./images/nanoracks-cupola.jpg"; title := "Nanoracks Cupola"; description := "Commercial research at the window" |};
  {| url := "./images/ISS-training.jpg"; title := "ISS Training"; description := "Astronaut training and preparation" |};
  {| url := "./images/flood.jpg"; title := "Floods"; description := "From space: Floodwaters turn land unusually dark or blue, expanding beyond normal riverbanks seen in pre-event images. Space imagery quickly outlines the true size of affected areas, even when clouds obscure the ground. Key features: Large swaths of darkened or shimmering area, water pooled in fields and urban landscapes." |};
  {| url := "./images/sandstorm.jpg"; title := "Sandstorm"; description := "From space: Massive sand or dust storms appear as tan or yellowish clouds moving across continents. These plumes can be traced from their origin (like the Sahara) as they travel thousands of kilometers, sometimes crossing oceans. Key features: Thick, billowing clouds of dust, often obscuring the surface below, moving in distinct fronts or swirls." |};
  {| url := "./images/wildfire.jpg"; title := "Wildfires"; description := "From space: Wildfires show up as bright orange/red hotspots using thermal sensors, while thick brown or gray smoke plumes often stretch for hundreds of kilometers. Burn scars appear as dark patches contrasting with surrounding land. Key features: Long smoke trails, rapid expansion, thermal signatures even through clouds." |}
]%string.

(** The element a click lands on.  While the overlay is open it covers
    the page ([fixed inset-0], [z-50]), so a click there lands on the
    backdrop: [RCard] stands for the clicks that reach a card. *)
Inductive rg_target :=
| RCard (idx : nat)       (** the [idx]-th card, or any element inside it *)
| RBackdrop               (** the overlay [motion.div] of line 99 itself *)
| RPanel                  (** the image, title or description of the panel *)
| RCloseButton.           (** the button of line 123 or its [span] *)

(** The component's state: [selectedImage]. *)
Definition rg_state : Type := option cupola_image.

(** The handlers a click meets, from its target outwards. *)
Inductive rg_handler := HCard (image : cupola_image) | HClose | HStop | HOverlay.

(** The [onClick] props on the path from the target to the root: a card
    exists for each index of [cupolaImages] and its handler closes over its
    image; the overlay and its children are rendered only while an image is
    selected. *)
Definition rg_path (s : rg_state) (t : rg_target) : list rg_handler :=
  match t, s with
  | RCard idx, _ => match nth_error cupolaImages idx with Some im => [HCard im] | None => [] end
  | _, None => []
  | RBackdrop, Some _ => [HOverlay]
  | RPanel, Some _ => [HStop; HOverlay]
  | RCloseButton, Some _ => [HClose; HStop; HOverlay]
  end.

(** One handler: the new [selectedImage] and whether the event goes on
    bubbling. *)
Definition rg_handle (s : rg_state) (h : rg_handler) : rg_state * bool :=
  match h with
  | HCard im => (Some im, true)
  | HClose => (None, true)
  | HStop => (s, false)
  | HOverlay => (None, true)
  end.

(** React's bubbling: run the handlers until one stops the propagation. *)
Fixpoint bubble (s : rg_state) (hs : list rg_handler) : rg_state :=
  match hs with
  | [] => s
  | h :: hs => let '(s', go) := rg_handle s h in if go then bubble s' hs else s'
  end.

Definition rg_click (s : rg_state) (t : rg_target) : rg_state := bubble s (rg_path s t).

Definition img_shown (im : cupola_image) : shown_item := (url im, title im, description im).

Definition rg_shown (s : rg_state) : option shown_item := option_map img_shown s.

(** The abstract operations as clicks on the page. *)
Definition rg_target_of (op : lb_op) : rg_target :=
  match op with
  | OpOpen i => RCard i
  | OpClose => RCloseButton
  | OpBackdrop => RBackdrop
  | OpContent => RPanel
  end.

(** ** Properties *)

Lemma rg_click_op s op :
  rg_shown (rg_click s (rg_target_of op)) = spec_step (map img_shown cupolaImages) (rg_shown s) op.
Proof.
  destruct op as [i| | |]; cbn [rg_target_of spec_step]; unfold rg_click, rg_path;
    [rewrite nth_error_map; destruct (nth_error cupolaImages i) | ..]; destruct s; reflexivity.
Qed.

(** C27: the React gallery implements the abstract lightbox over
    [cupolaImages]: from any selection, after any sequence of card clicks,
    close-button clicks, backdrop clicks and clicks on the panel, the
    overlay shows what [spec_step] says; in particular the panel's
    [stopPropagation] keeps a click on the image from closing it, and it
    does not keep the close button from closing it. *)
Theorem gallery_refines_spec s ops :
  rg_shown (fold_left rg_click (map rg_target_of ops) s) =
  fold_left (spec_step (map img_shown cupolaImages)) ops (rg_shown s).
Proof.
  revert s; induction ops as [|op ops IH]; intros s; [reflexivity|].
  cbn [map fold_left]. rewrite IH, rg_click_op. reflexivity.
Qed.
