(* ===== verification/Layout.v ===== *)
(** * Layout: the navigation bar of [src/layout.js]

    [Layout] renders the four [navItems] (lines 9-14) twice, as the desktop
    pill bar (lines 37-66) and as the mobile bar (lines 88-101); in both an
    item is highlighted when [location.pathname === item.path].  Following
    a [Link] sets the path to the item's [path].  [createPageUrl] comes from
    [@/utils], which is not part of the repository: it is a variable of the
    section, and the theorems assume only that it gives the four pages
    distinct paths. *)

From Stdlib Require Import List Bool String Arith Lia.
From S2P Require Import Prelude.
Import ListNotations.
Local Open Scope string_scope.

Record nav_item := { name : string; path : string }.

Section Layout.

Variable createPageUrl : string -> string.

(** [navItems], lines 9-14. *)
Definition navItems : list nav_item := [
  {| name := "Home"; path := createPageUrl "Home" |};
  {| name := "Education"; path := createPageUrl "Education" |};
  {| name := "Disaster Prediction"; path := createPageUrl "DisasterPrediction" |};
  {| name := "Gallery"; path := createPageUrl "Gallery" |}
].

(** [isActive], lines 38 and 89: the flags of the items in order. *)
Definition isActive (pathname : string) (item : nav_item) : bool := String.eqb pathname (path item).

Definition nav_active (pathname : string) : list bool := map (isActive pathname) navItems.

(** The class of the mobile link, lines 94-96. *)
Definition mobile_class (pathname : string) (item : nav_item) : string :=
  "text-xs font-light " ++ (if isActive pathname item then "text-cyan-400" else "text-white/60").

(** The class of the desktop pill, lines 49-53; the [activeTab]
    highlight of lines 55-61 is rendered under the same [isActive]. *)
Definition desktop_class (pathname : string) (item : nav_item) : string :=
  "px-6 py-2 rounded-full text-sm font-light tracking-wide transition-all " ++
  (if isActive pathname item then "text-white" else "text-white/60 hover:text-white/90").

(** A click on a [Link] of either bar: [to={item.path}]. *)
Definition follow (pathname : string) (idx : nat) : string :=
  match nth_error navItems idx with Some it => path it | None => pathname end.

(** The page names are distinct paths. *)
Hypothesis pages_distinct : NoDup (map path navItems).

(** C28: following the [idx]-th link highlights that item and no other:
    the [j]-th flag of the bar (the desktop pill and the mobile link share
    it) is true exactly when [j = idx]. *)
Theorem follow_highlights_one pathname idx j :
  idx < List.length navItems ->
  nth_error (nav_active (follow pathname idx)) j =
  option_map (fun _ => Nat.eqb j idx) (nth_error navItems j).
Proof.
  intros Hi. unfold follow. destruct (nth_error navItems idx) as [it|] eqn:E;
    [|apply nth_error_None in E; lia].
  unfold nav_active, isActive. apply (indicator_nth String.eqb path); [exact String.eqb_spec | exact pages_distinct |].
  rewrite nth_error_map, E. reflexivity.
Qed.

End Layout.

(** ** Witness: the paths of a router that maps a page name to [/name] *)

Definition slash_url (page : string) : string := "/" ++ page.

Lemma follow_highlights_one_witness :
  nth_error (nav_active slash_url (follow slash_url "/Home" 3)) 3 = Some true.
Proof.
  rewrite (follow_highlights_one slash_url); [reflexivity| |cbn; lia].
  cbn. repeat constructor; cbn; intuition discriminate.
Defined.
